(** * semver-isvalid: the validator of pkg/semver, embedded and verified

    The Go package [semver] exports one function, [Validate], which takes a
    version string and returns an error (or nil) together with a slice of
    diagnostic messages.  This file embeds that function, the two helpers it
    is written with ([numToName], [containsOnly]) and the parts of the Go
    standard library they call ([strings], [strconv], [unicode/utf8], the
    two [fmt] verbs in use), the command of package [main] that prints its
    messages and turns its error into an exit status, and the test of the
    package, and proves the properties the specification states about
    [Validate] and further ones the code shows.

    Conventions of the embedding:
    - a Go [string] is a sequence of bytes: [String.string], one [ascii] per
      byte; [len] is the number of bytes;
    - Go's [int], [rune] and [uint64] are [Z]; where the source relies on
      the width (the overflow test of [ParseUint]) the wrap-around is
      written out;
    - a run-time panic (an index out of range, the explicit [panic] of
      [numToName]) is a result of its own, [Panic], in the [exec] monad;
    - the pair [(error, []string)] that [Validate] returns is
      [option error * list string], [None] being Go's [nil]. *)

From Stdlib Require Import ZArith Lia Bool List Ascii String.
From Stdlib Require Import DecimalString DecimalFacts DecimalZ.
From stdpp Require Import base list.

Local Open Scope Z_scope.

(** ** Bytes and byte strings *)

Definition byte := ascii.

(** The numeric value of a byte, [0 <= b2z b < 256]. *)
Definition b2z (b : byte) : Z := Z.of_N (N_of_ascii b).

(** Go's conversion [byte(x)]: the low eight bits. *)
Definition z2b (z : Z) : byte := ascii_of_N (Z.to_N (z mod 256)).

(** [len(s)] of a string and [len(a)] of a slice. *)
Definition len (s : string) : Z := Z.of_nat (String.length s).
Definition lenS {A : Type} (a : list A) : Z := Z.of_nat (length a).

(** [append(a, x)] on a slice. *)
Definition appendS {A : Type} (a : list A) (x : A) : list A := a ++ [x].

(** [s[:n]] and [s[n:]] for [0 <= n <= len(s)]. *)
Fixpoint sliceTo (s : string) (n : nat) {struct n} : string :=
  match n, s with
  | S n', String c t => String c (sliceTo t n')
  | _, _ => EmptyString
  end.

Fixpoint sliceFrom (s : string) (n : nat) {struct n} : string :=
  match n, s with
  | S n', String _ t => sliceFrom t n'
  | _, _ => s
  end.

(** ** Panics

    [exec A] is the result of running Go code that yields an [A] unless it
    panics. *)

Inductive exec (A : Type) : Type :=
| Ret (a : A)
| Panic (msg : string).

Arguments Ret {A} a.
Arguments Panic {A} msg.

Definition bind {A B : Type} (m : exec A) (k : A -> exec B) : exec B :=
  match m with
  | Ret a => k a
  | Panic msg => Panic msg
  end.

Notation "'let*' x ':=' m 'in' k" := (bind m (fun x => k))
  (at level 10, x name, m at level 100, k at level 200, only parsing).
Notation "'let*' ' pat ':=' m 'in' k" :=
  (bind m (fun x => match x with pat => k end))
  (at level 10, pat pattern, m at level 100, k at level 200, only parsing).

(** [s[i]] on a string and [a[i]] on a slice: both panic out of range. *)
Definition byteAt (s : string) (i : nat) : exec byte :=
  match String.get i s with
  | Some b => Ret b
  | None => Panic "index out of range"
  end.

Definition at_ {A : Type} (a : list A) (i : nat) : exec A :=
  match a !! i with
  | Some x => Ret x
  | None => Panic "index out of range"
  end.

(** [a[i] = x]: panics out of range, where stdpp's insert would do nothing. *)
Definition setAt {A : Type} (a : list A) (i : nat) (x : A) : exec (list A) :=
  if decide (i < length a)%nat then Ret (<[i:=x]> a)
  else Panic "index out of range".

(** ** Package unicode/utf8 *)

Module utf8.

Definition RuneError : Z := 0xFFFD.
Definition RuneSelf : Z := 0x80.
Definition MaxRune : Z := 0x10FFFF.
Definition surrogateMin : Z := 0xD800.
Definition surrogateMax : Z := 0xDFFF.

Definition maskx : Z := 0x3F.
Definition mask2 : Z := 0x1F.
Definition mask3 : Z := 0x0F.
Definition mask4 : Z := 0x07.

Definition rune1Max : Z := 0x7F.
Definition rune2Max : Z := 0x7FF.
Definition rune3Max : Z := 0xFFFF.

Definition locb : Z := 0x80.
Definition hicb : Z := 0xBF.

(** The table [first]: information about the first byte of an encoding.
    [0xF0] ([as]) is ASCII, [0xF1] ([xx]) is invalid, the others give the
    index of the accept range in the high nibble and the size in the low. *)
Definition first (b : Z) : Z :=
  if b <? 0x80 then 0xF0
  else if b <? 0xC2 then 0xF1
  else if b <? 0xE0 then 0x02
  else if b =? 0xE0 then 0x13
  else if b <? 0xED then 0x03
  else if b =? 0xED then 0x23
  else if b <? 0xF0 then 0x03
  else if b =? 0xF0 then 0x34
  else if b <? 0xF4 then 0x04
  else if b =? 0xF4 then 0x44
  else 0xF1.

(** [acceptRanges]: the range of valid values of the second byte. *)
Definition acceptRanges (i : Z) : Z * Z :=
  if i =? 1 then (0xA0, hicb)
  else if i =? 2 then (locb, 0x9F)
  else if i =? 3 then (0x90, hicb)
  else if i =? 4 then (locb, 0x8F)
  else (locb, hicb).

(** [DecodeRuneInString(s)]: the first rune of [s] and its width in bytes;
    [(RuneError, 0)] on the empty string, [(RuneError, 1)] on an invalid
    encoding. *)
Definition DecodeRuneInString (s : string) : Z * Z :=
  match s with
  | EmptyString => (RuneError, 0)
  | String c0 t0 =>
    let s0 := b2z c0 in
    let x := first s0 in
    if x >=? 0xF0 then
      (* mask := rune(x) << 31 >> 31: all ones for xx, zero for as *)
      (if x =? 0xF0 then s0 else RuneError, 1)
    else
      let sz := Z.land x 7 in
      let accept := acceptRanges (Z.shiftr x 4) in
      if len s <? sz then (RuneError, 1)
      else
        match t0 with
        | EmptyString => (RuneError, 1)
        | String c1 t1 =>
          let s1 := b2z c1 in
          if (s1 <? fst accept) || (snd accept <? s1) then (RuneError, 1)
          else if sz <=? 2 then
            (Z.lor (Z.shiftl (Z.land s0 mask2) 6) (Z.land s1 maskx), 2)
          else
            match t1 with
            | EmptyString => (RuneError, 1)
            | String c2 t2 =>
              let s2 := b2z c2 in
              if (s2 <? locb) || (hicb <? s2) then (RuneError, 1)
              else if sz <=? 3 then
                (Z.lor (Z.lor (Z.shiftl (Z.land s0 mask3) 12)
                              (Z.shiftl (Z.land s1 maskx) 6))
                       (Z.land s2 maskx), 3)
              else
                match t2 with
                | EmptyString => (RuneError, 1)
                | String c3 _ =>
                  let s3 := b2z c3 in
                  if (s3 <? locb) || (hicb <? s3) then (RuneError, 1)
                  else
                    (Z.lor (Z.lor (Z.lor (Z.shiftl (Z.land s0 mask4) 18)
                                         (Z.shiftl (Z.land s1 maskx) 12))
                                  (Z.shiftl (Z.land s2 maskx) 6))
                           (Z.land s3 maskx), 4)
                end
            end
        end
  end.

(** [ValidRune(r)]. *)
Definition ValidRune (r : Z) : bool :=
  ((0 <=? r) && (r <? surrogateMin)) || ((surrogateMax <? r) && (r <=? MaxRune)).

(** [string(r)], that is [AppendRune(nil, r)]: the UTF-8 encoding of [r],
    of [RuneError] when [r] is not a valid rune. *)
Definition encode3 (r : Z) : string :=
  String (z2b (Z.lor 0xE0 (Z.shiftr r 12)))
    (String (z2b (Z.lor 0x80 (Z.land (Z.shiftr r 6) maskx)))
       (String (z2b (Z.lor 0x80 (Z.land r maskx))) EmptyString)).

Definition EncodeRune (r : Z) : string :=
  if (0 <=? r) && (r <=? rune1Max) then String (z2b r) EmptyString
  else if (0 <=? r) && (r <=? rune2Max) then
    String (z2b (Z.lor 0xC0 (Z.shiftr r 6)))
      (String (z2b (Z.lor 0x80 (Z.land r maskx))) EmptyString)
  else if (r <? 0) || (MaxRune <? r) || ((surrogateMin <=? r) && (r <=? surrogateMax))
  then encode3 RuneError
  else if r <=? rune3Max then encode3 r
  else
    String (z2b (Z.lor 0xF0 (Z.shiftr r 18)))
      (String (z2b (Z.lor 0x80 (Z.land (Z.shiftr r 12) maskx)))
         (String (z2b (Z.lor 0x80 (Z.land (Z.shiftr r 6) maskx)))
            (String (z2b (Z.lor 0x80 (Z.land r maskx))) EmptyString))).

End utf8.

(** The loop [for i, r := range s]: at byte offset [i] the rune [r] is the
    byte itself below [RuneSelf] and the decoded rune otherwise, and the loop
    moves on by the rune's width.  The recursion is on the bytes of [s];
    [skip] counts the continuation bytes of the rune being stepped over.
    [rangeFind f s] is the offset of the first rune that satisfies [f], or
    [-1]. *)
Definition runeAt (s : string) : Z * Z :=
  match s with
  | EmptyString => (utf8.RuneError, 0)
  | String c _ =>
    if b2z c <? utf8.RuneSelf then (b2z c, 1) else utf8.DecodeRuneInString s
  end.

Fixpoint rangeFindFrom (f : Z -> bool) (s : string) (skip : nat) (i : Z) : Z :=
  match s with
  | EmptyString => -1
  | String _ t =>
    match skip with
    | S k => rangeFindFrom f t k (i + 1)
    | O =>
      let '(r, w) := runeAt s in
      if f r then i else rangeFindFrom f t (Z.to_nat w - 1) (i + 1)
    end
  end.

Definition rangeFind (f : Z -> bool) (s : string) : Z := rangeFindFrom f s 0 0.

(** ** Errors

    The values of Go's [error] interface that [Validate] can return: the four
    sentinel errors the package declares with [errors.New], and the
    [*strconv.NumError] of a failed conversion, which records the function,
    the input and one of strconv's two causes. *)

Inductive numCause : Type :=
| ErrRange    (* "value out of range" *)
| ErrSyntax.  (* "invalid syntax" *)

Inductive error : Type :=
| ErrEmptyString
| ErrInvalidNumberParts
| ErrInvalidCharacters
| ErrSegmentStartsZero
| NumError (Func Num : string) (Err : numCause).

(** ** Package strings *)

Module strings.

(** [Index(s, substr)]: the offset of the first instance of [substr] in [s],
    or [-1]. *)
Fixpoint Index (s substr : string) : Z :=
  if String.prefix substr s then 0
  else
    match s with
    | EmptyString => -1
    | String _ t => let i := Index t substr in if i <? 0 then -1 else i + 1
    end.

(** [IndexByte(s, c)]. *)
Fixpoint IndexByte (s : string) (c : byte) : Z :=
  match s with
  | EmptyString => -1
  | String b t =>
    if Ascii.eqb b c then 0
    else let i := IndexByte t c in if i <? 0 then -1 else i + 1
  end.

(** [IndexRune(s, r)]: the four cases of the source. *)
Definition IndexRune (s : string) (r : Z) : Z :=
  if (0 <=? r) && (r <? utf8.RuneSelf) then IndexByte s (z2b r)
  else if r =? utf8.RuneError then rangeFind (fun r' => r' =? utf8.RuneError) s
  else if negb (utf8.ValidRune r) then -1
  else Index s (utf8.EncodeRune r).

Definition ContainsRune (s : string) (r : Z) : bool := 0 <=? IndexRune s r.

(** [IndexFunc(s, f)]: the offset of the first rune satisfying [f], or [-1]. *)
Definition IndexFunc (s : string) (f : Z -> bool) : Z := rangeFind f s.

(** [IndexAny(s, chars)]: the offset of the first rune of [s] that occurs in
    [chars], or [-1].  (The source answers an all-ASCII [chars] from a bit
    set when [s] is long; the result is the one of the general loop.) *)
Definition IndexAny (s chars : string) : Z :=
  match chars with
  | EmptyString => -1
  | String c EmptyString =>
    let r := b2z c in
    IndexRune s (if r >=? utf8.RuneSelf then utf8.RuneError else r)
  | _ => rangeFind (fun c => 0 <=? IndexRune chars c) s
  end.

Definition ContainsAny (s chars : string) : bool := 0 <=? IndexAny s chars.

(** [Count(s, substr)] for a non-empty [substr]: the number of
    non-overlapping instances.  A one-byte [substr] is counted byte by byte;
    the general loop cuts [s] after each instance, at least one byte at a
    time, so [len(s)] rounds are enough. *)
Fixpoint countByte (s : string) (c : byte) : Z :=
  match s with
  | EmptyString => 0
  | String b t => (if Ascii.eqb b c then 1 else 0) + countByte t c
  end.

Fixpoint countLoop (rounds : nat) (s substr : string) (n : Z) : Z :=
  match rounds with
  | O => n
  | S k =>
    let i := Index s substr in
    if i =? -1 then n
    else countLoop k (sliceFrom s (Z.to_nat (i + len substr))) substr (n + 1)
  end.

Definition Count (s substr : string) : Z :=
  match substr with
  | String c EmptyString => countByte s c
  | _ => countLoop (String.length s) s substr 0
  end.

(** [genSplit(s, sep, 0, n)] for a non-empty [sep] (the package never splits
    on the empty string): [a] is filled while [i < n - 1] and [sep] is found;
    what is left of [s] is the last element. *)
Fixpoint splitLoop (rounds : nat) (s sep : string) : list string :=
  match rounds with
  | O => [s]
  | S k =>
    let m := Index s sep in
    if m <? 0 then [s]
    else sliceTo s (Z.to_nat m) :: splitLoop k (sliceFrom s (Z.to_nat (m + len sep))) sep
  end.

Definition genSplit (s sep : string) (n : Z) : list string :=
  if n =? 0 then []
  else
    let n := if n <? 0 then Count s sep + 1 else n in
    let n := if n >? len s + 1 then len s + 1 else n in
    splitLoop (Z.to_nat (n - 1)) s sep.

Definition SplitN (s sep : string) (n : Z) : list string := genSplit s sep n.
Definition Split (s sep : string) : list string := genSplit s sep (-1).

(** [HasPrefix(s, prefix)] and [TrimPrefix(s, prefix)]. *)
Definition HasPrefix (s prefix : string) : bool := String.prefix prefix s.

Definition TrimPrefix (s prefix : string) : string :=
  if HasPrefix s prefix then sliceFrom s (String.length prefix) else s.

End strings.

(** ** Package strconv *)

Module strconv.

Definition maxUint64 : Z := 2 ^ 64 - 1.

(** [lower(c)]: [c | ('x' - 'X')]. *)
Definition lower (c : Z) : Z := Z.lor c 0x20.

(** [ParseUint(s, 10, 64)], the one instance the package calls.  [n] is a
    [uint64]: the product and the sum wrap modulo [2^64], and the source
    detects the overflow of the product before it is formed ([n >= cutoff])
    and the one of the sum after ([n1 < n]). *)
Definition base : Z := 10.
Definition bitSize : Z := 64.
Definition cutoff : Z := maxUint64 / 10 + 1.
Definition maxVal : Z := (Z.shiftl 1 bitSize mod 2 ^ 64 - 1) mod 2 ^ 64.

Definition syntaxError (fn str : string) : error := NumError fn str ErrSyntax.
Definition rangeError (fn str : string) : error := NumError fn str ErrRange.

Definition digitOf (c : Z) : option Z :=
  if (48 <=? c) && (c <=? 57) then Some (c - 48)
  else if (97 <=? lower c) && (lower c <=? 122) then Some (lower c - 97 + 10)
  else None.

Fixpoint parseLoop (s0 : string) (bs : string) (n : Z) : Z * option error :=
  match bs with
  | EmptyString => (n, None)
  | String c t =>
    match digitOf (b2z c) with
    | None => (0, Some (syntaxError "ParseUint" s0))
    | Some d =>
      if d >=? base then (0, Some (syntaxError "ParseUint" s0))
      else if n >=? cutoff then (maxVal, Some (rangeError "ParseUint" s0))
      else
        let n := (n * base) mod 2 ^ 64 in
        let n1 := (n + d) mod 2 ^ 64 in
        if (n1 <? n) || (n1 >? maxVal) then (maxVal, Some (rangeError "ParseUint" s0))
        else parseLoop s0 t n1
    end
  end.

Definition ParseUint (s : string) : Z * option error :=
  match s with
  | EmptyString => (0, Some (syntaxError "ParseUint" s))
  | _ => parseLoop s s 0
  end.

(** [FormatInt(n, 10)], which is what the verb [%d] prints. *)
Definition FormatInt (n : Z) : string := NilZero.string_of_int (Z.to_int n).

Definition lowerhex (d : Z) : string :=
  match String.get (Z.to_nat d) "0123456789abcdef" with
  | Some c => String c EmptyString
  | None => EmptyString
  end.

Section Quote.

(** [IsPrint] answers runes above Latin-1 from strconv's tables of printable
    ranges ([isPrint16], [isNotPrint16], [isPrint32], [isNotPrint32]); those
    tables are a parameter here. *)
Variable isPrintWide : Z -> bool.

Definition IsPrint (r : Z) : bool :=
  if r <=? 0xFF then
    if (0x20 <=? r) && (r <=? 0x7E) then true
    else if (0xA1 <=? r) && (r <=? 0xFF) then negb (r =? 0xAD)
    else false
  else isPrintWide r.

Definition hexDigits (r : Z) (shifts : list Z) : string :=
  fold_right (fun s acc => (lowerhex (Z.land (Z.shiftr r s) 0xF) ++ acc)%string)
             EmptyString shifts.

(** [appendEscapedRune(buf, r, quote, false, false)], [quote] being the
    double quote (byte 34): what is appended to [buf]. *)
Definition escapedRune (r : Z) : string :=
  if (r =? 34) || (r =? 92) then String "\" (String (z2b r) EmptyString)
  else if IsPrint r then utf8.EncodeRune r
  else if r =? 7 then "\a"
  else if r =? 8 then "\b"
  else if r =? 12 then "\f"
  else if r =? 10 then "\n"
  else if r =? 13 then "\r"
  else if r =? 9 then "\t"
  else if r =? 11 then "\v"
  else if (r <? 32) || (r =? 0x7F) then
    ("\x" ++ lowerhex (Z.shiftr (b2z (z2b r)) 4) ++ lowerhex (Z.land (b2z (z2b r)) 0xF))%string
  else
    let r' := if negb (utf8.ValidRune r) then 0xFFFD else r in
    if negb (utf8.ValidRune r) || (r <? 0x10000) then ("\u" ++ hexDigits r' [12; 8; 4; 0])%string
    else ("\U" ++ hexDigits r' [28; 24; 20; 16; 12; 8; 4; 0])%string.

(** The loop of [appendQuotedWith], rune by rune. *)
Fixpoint quoteFrom (s : string) (skip : nat) : string :=
  match s with
  | EmptyString => EmptyString
  | String c t =>
    match skip with
    | S k => quoteFrom t k
    | O =>
      let '(r, width) := runeAt s in
      let invalid := (width =? 1) && (r =? utf8.RuneError) in
      ((if invalid then
          "\x" ++ lowerhex (Z.shiftr (b2z c) 4) ++ lowerhex (Z.land (b2z c) 0xF)
        else escapedRune r)
       ++ quoteFrom t (Z.to_nat width - 1))%string
    end
  end.

(** [Quote(s)], which is what the verb [%q] prints for a string. *)
Definition Quote (s : string) : string :=
  (String "034" (quoteFrom s 0) ++ String "034" EmptyString)%string.

End Quote.

End strconv.

(** ** Package fmt: the two verbs of the package's format strings *)

Module fmt.

Section Verbs.
Variable isPrintWide : Z -> bool.

(** [%d] of an [int] or a [uint64]. *)
Definition d (n : Z) : string := strconv.FormatInt n.

(** [%q] of a string. *)
Definition q (s : string) : string := strconv.Quote isPrintWide s.

End Verbs.

End fmt.

(** ** Package semver *)

Module semver.

Local Open Scope string_scope.

Definition num : string := "0123456789".
Definition allowed : string :=
  "abcdefghijklmnopqrstuvwxyzABCDEFGHIJKLMNOPQRSTUVWXYZ-" ++ num.

Record version : Type := mkVersion {
  major : Z;
  minor : Z;
  patch : Z;
  pre : string;
  metadata : string
}.

Definition set_major (v : version) (n : Z) : version :=
  mkVersion n (minor v) (patch v) (pre v) (metadata v).
Definition set_minor (v : version) (n : Z) : version :=
  mkVersion (major v) n (patch v) (pre v) (metadata v).
Definition set_patch (v : version) (n : Z) : version :=
  mkVersion (major v) (minor v) n (pre v) (metadata v).
Definition set_pre (v : version) (s : string) : version :=
  mkVersion (major v) (minor v) (patch v) s (metadata v).
Definition set_metadata (v : version) (s : string) : version :=
  mkVersion (major v) (minor v) (patch v) (pre v) s.

(** [&version{}]: every field at its zero value. *)
Definition zeroVersion : version := mkVersion 0 0 0 "" "".

(** What [Validate] returns: the error ([None] is [nil]) and the messages. *)
Definition result : Type := option error * list string.

(** What a loop with a [return] in its body yields: [Some r] when the
    function has returned [r] from inside the loop, [None] when the loop ran
    to its end. *)
Definition returned : Type := option result.

Definition numToName (i : Z) : exec string :=
  if (i =? 0)%Z then Ret "major"
  else if (i =? 1)%Z then Ret "minor"
  else if (i =? 2)%Z then Ret "patch"
  else Panic "Invalid part number".

Definition containsOnly (s comp : string) : bool :=
  (strings.IndexFunc s (fun r => negb (strings.ContainsRune comp r)) =? -1)%Z.

(** The condition [len(p) > 1 && p[0] == '0']; [&&] does not evaluate
    [p[0]] when [p] is too short. *)
Definition leadingZero (p : string) : exec bool :=
  if (len p >? 1)%Z then let* b := byteAt p 0 in Ret (Ascii.eqb b "0")
  else Ret false.

Section Validate.

Variable isPrintWide : Z -> bool.

Notation "'%q' s" := (fmt.q isPrintWide s) (at level 10, only parsing).
Notation "'%d' n" := (fmt.d n) (at level 10, only parsing).

(** Lines 49-63: metadata, then the pre-release, are cut off [parts[2]]. *)
Definition trimSuffixes (v : version) (parts : list string)
  : exec (version * list string) :=
  let* p2 := at_ parts 2 in
  if strings.ContainsAny p2 "-+" then
    let tmp := strings.SplitN p2 "+" 2 in
    let* '(v, parts) :=
      (if (lenS tmp >? 1)%Z then
         let* t1 := at_ tmp 1 in
         let* t0 := at_ tmp 0 in
         let* parts := setAt parts 2 t0 in
         Ret (set_metadata v t1, parts)
       else Ret (v, parts)) in
    let* p2 := at_ parts 2 in
    let tmp := strings.SplitN p2 "-" 2 in
    if (lenS tmp >? 1)%Z then
      let* t1 := at_ tmp 1 in
      let* t0 := at_ tmp 0 in
      let* parts := setAt parts 2 t0 in
      Ret (set_pre v t1, parts)
    else Ret (v, parts)
  else Ret (v, parts).

(** Lines 68-78: [for i, p := range parts], from index [i] on. *)
Fixpoint checkSegments (i : Z) (parts : list string) (messages : list string)
  : exec returned :=
  match parts with
  | [] => Ret None
  | p :: rest =>
    if negb (containsOnly p num) then
      let* name := numToName i in
      Ret (Some (Some ErrInvalidCharacters,
                 appendS messages ("Illegal non-numeric characters found in " ++ %q name ++ " part")))
    else
      let* lz := leadingZero p in
      if lz then
        let* name := numToName i in
        Ret (Some (Some ErrSegmentStartsZero,
                   appendS messages ("Illegal leading 0 found in " ++ %q name ++ " part")))
      else checkSegments (i + 1)%Z rest messages
  end.

(** Lines 105-115: [for _, p := range tmp] over the pre-release identifiers. *)
Fixpoint checkPre (tmp : list string) (messages : list string) : exec returned :=
  match tmp with
  | [] => Ret None
  | p :: rest =>
    if containsOnly p num then
      let* lz := leadingZero p in
      if lz then
        Ret (Some (Some ErrSegmentStartsZero,
                   appendS messages ("Illegal leading 0 found in pre-release numeric part " ++ %q p)))
      else checkPre rest messages
    else if negb (containsOnly p allowed) then
      Ret (Some (Some ErrInvalidCharacters,
                 appendS messages ("Illegal characters found in pre-release non-numeric part "
                              ++ %q p ++ ". Must be [0-9A-Za-z-]")))
    else checkPre rest messages
  end.

(** Lines 122-127: [for _, p := range tmp] over the metadata identifiers. *)
Fixpoint checkMeta (tmp : list string) (messages : list string) : exec returned :=
  match tmp with
  | [] => Ret None
  | p :: rest =>
    if negb (containsOnly p allowed) then
      Ret (Some (Some ErrInvalidCharacters,
                 appendS messages ("Illegal characters found in metadata part "
                              ++ %q p ++ ". Must be [0-9A-Za-z-]")))
    else checkMeta rest messages
  end.

Definition preNotice : string :=
  "NOTICE: A pre-release version indicates that the version is unstable and might not satisfy the intended compatibility requirements as denoted by its associated normal version.".

Definition metaNotice : string :=
  "NOTICE: Build metadata MUST be ignored when determining version precedence. Thus two versions that differ only in the build metadata, have the same precedence.".

(** Lines 103-132: the pre-release, the metadata, and the final [return]. *)
Definition validateSuffixes (v : version) (messages : list string) : exec result :=
  let* r := (if negb (pre v =? "") then
          let tmp := strings.Split (pre v) "." in
          let* r := checkPre tmp messages in
          match r with
          | Some ret => Ret (inl ret)
          | None =>
            let messages := appendS messages
              ("Version is a pre-release version rather than a stable release version with a pre-release identifier of "
               ++ %q (pre v)) in
            let messages := appendS messages preNotice in
            Ret (inr messages)
          end
        else Ret (inr messages)) in
  match r with
  | inl ret => Ret ret
  | inr messages =>
    if negb (metadata v =? "") then
      let tmp := strings.Split (metadata v) "." in
      let* r := checkMeta tmp messages in
      match r with
      | Some ret => Ret ret
      | None =>
        let messages := appendS messages
          ("Found build metadate on version of " ++ %q (metadata v)) in
        let messages := appendS messages metaNotice in
        Ret (None, messages)
      end
    else Ret (None, messages)
  end.

(** Lines 80-101: the three conversions, each followed by its message. *)
Definition parseSegments (v : version) (parts : list string) (messages : list string)
  : exec (result + version * list string) :=
  let* p0 := at_ parts 0 in
  let '(n, err) := strconv.ParseUint p0 in
  let v := set_major v n in
  match err with
  | Some e =>
    Ret (inl (Some e, appendS messages
      ("Unable to parse major part. Must be valid numeric characters [0-9]")))
  | None =>
    let messages := appendS messages ("Found major version of " ++ %d (major v)) in
    let* p1 := at_ parts 1 in
    let '(n, err) := strconv.ParseUint p1 in
    let v := set_minor v n in
    match err with
    | Some e =>
      Ret (inl (Some e, appendS messages
        ("Unable to parse minor part. Must be valid numeric characters [0-9]")))
    | None =>
      let messages := appendS messages ("Found minor version of " ++ %d (minor v)) in
      let* p2 := at_ parts 2 in
      let '(n, err) := strconv.ParseUint p2 in
      let v := set_patch v n in
      match err with
      | Some e =>
        Ret (inl (Some e, appendS messages
          ("Unable to parse patch part. Must be valid numeric characters [0-9]")))
      | None =>
        let messages := appendS messages ("Found patch version of " ++ %d (patch v)) in
        Ret (inr (v, messages))
      end
    end
  end.

(** [Validate(ver)]. *)
Definition Validate (ver : string) : exec result :=
  if (len ver =? 0)%Z then Ret (Some ErrEmptyString, [])
  else
    let parts := strings.SplitN ver "." 3 in
    if negb (lenS parts =? 3)%Z then
      let num := lenS parts in
      Ret (Some ErrInvalidNumberParts, ["Found " ++ %d num ++ " number of parts"])
    else
      let v := zeroVersion in
      let* '(v, parts) := trimSuffixes v parts in
      let messages := [] in
      let* r := checkSegments 0 parts messages in
      match r with
      | Some ret => Ret ret
      | None =>
        let* r := parseSegments v parts messages in
        match r with
        | inl ret => Ret ret
        | inr (v, messages) => validateSuffixes v messages
        end
      end.

End Validate.

End semver.

(** ** Package main: the command

    What the command does is what it writes and the status it exits with.
    [Println s] is [fmt.Println(s)] on the standard output, [RedStderr s] is
    the text [s] written to the standard error through the red writer
    (colour codes aside), [Help] is [cmd.Help()].  A run ends with the
    status given to [os.Exit], or with [None] when the function returns. *)

Module main.

Local Open Scope string_scope.

Inductive event : Type :=
| Println (s : string)
| RedStderr (s : string)
| Help.

Definition run : Type := list event * option Z.

(** The texts of the package's errors, what [%s] prints for them. *)
Definition sentinelText (e : error) : string :=
  match e with
  | ErrEmptyString => "Version string empty"
  | ErrInvalidNumberParts => "Version does not have 3 parts"
  | ErrInvalidCharacters => "Invalid characters in version"
  | ErrSegmentStartsZero => "Version segment starts with 0"
  | NumError _ _ _ => ""
  end.

Definition newline : string := String "010" "".

(** [fmt.Sprintf(errmsg, e)]. *)
Definition errmsg (e : error) : string :=
  "Invalid Semantic Version: " ++ sentinelText e
  ++ ". For more information see https://semver.org" ++ newline.

Section Command.

Variable isPrintWide : Z -> bool.

(** [validate(ver)], [withV] being the value of the flag [--with-v]. *)
Definition validate (withV : bool) (ver : string) : exec run :=
  let ver := if withV then strings.TrimPrefix ver "v" else ver in
  let* '(err, msgs) := semver.Validate isPrintWide ver in
  let out := map Println msgs in
  match err with
  | Some ErrEmptyString =>
      Ret (appendS out (RedStderr (errmsg ErrEmptyString)), Some 3%Z)
  | Some ErrInvalidNumberParts =>
      Ret (appendS out (RedStderr (errmsg ErrInvalidNumberParts)), Some 4%Z)
  | Some ErrInvalidCharacters =>
      Ret (appendS out (RedStderr (errmsg ErrInvalidCharacters)), Some 5%Z)
  | Some ErrSegmentStartsZero =>
      Ret (appendS out (RedStderr (errmsg ErrSegmentStartsZero)), Some 6%Z)
  | None => Ret (appendS out (Println "Semantic Version is valid"), None)
  | Some (NumError _ _ _) =>
      Ret (appendS out
             (RedStderr ("Invalid Semantic Version. For more information see https://semver.org"
                         ++ newline)),
           Some 2%Z)
  end.


End Command.

End main.

(** ** The test of package semver

    [TestIsValid] runs [Validate] on each row of its table and fails, with
    [t.Fatalf], on the first row whose expectation is not met. *)

Module semver_test.

Local Open Scope string_scope.

Definition nl : string := String "010" "".

(** The table: the version and whether an error is expected. *)
Definition tests : list (string * bool) :=
  [("1.2.3", false); ("1.2.3-alpha.01", true); ("1.2.3+test.01", false);
   ("1.2.3-alpha.-1", false); ("v1.2.3", true); ("1.0", true); ("v1.0", true);
   ("1", true); ("v1", true); ("1.2.beta", true); ("v1.2.beta", true);
   ("foo", true); ("1.2-5", true); ("v1.2-5", true); ("1.2-beta.5", true);
   ("v1.2-beta.5", true); (nl ++ "1.2", true); (nl ++ "v1.2", true);
   ("1.2.0-x.Y.0+metadata", false); ("v1.2.0-x.Y.0+metadata", true);
   ("1.2.0-x.Y.0+metadata-width-hypen", false);
   ("v1.2.0-x.Y.0+metadata-width-hypen", true);
   ("1.2.3-rc1-with-hypen", false); ("v1.2.3-rc1-with-hypen", true);
   ("1.2.3.4", true); ("v1.2.3.4", true); ("1.2.2147483648", false);
   ("1.2147483648.3", false); ("2147483648.3.0", false)].

Section Test.

Variable isPrintWide : Z -> bool.

(** The loop of the test: [Some version] is the row [t.Fatalf] stops at,
    [None] is a test that passes. *)
Fixpoint runTests (rows : list (string * bool)) : exec (option string) :=
  match rows with
  | [] => Ret None
  | (version, wantErr) :: rest =>
    let* '(err, _) := semver.Validate isPrintWide version in
    match err with
    | None => if wantErr then Ret (Some version) else runTests rest
    | Some _ => if negb wantErr then Ret (Some version) else runTests rest
    end
  end.

Definition TestIsValid : exec (option string) := runTests tests.

End Test.

End semver_test.

(** * Notions of the statements

    Tests on bytes, the decimal value of a string of digits, cuts at a
    separator and the texts of the messages: what the lemmas and theorems
    below are stated with. *)

(** [allBytes P s]: every byte of [s] satisfies [P]. *)
Fixpoint allBytes (P : byte -> bool) (s : string) : bool :=
  match s with
  | EmptyString => true
  | String c t => P c && allBytes P t
  end.

(** [memByte comp c]: the byte [c] occurs in [comp]. *)
Definition memByte (comp : string) (c : byte) : bool := 0 <=? strings.IndexByte comp c.

(** A byte below [0x80]. *)
Definition isASCII (c : byte) : bool := b2z c <? 128.

(** The bytes [0] to [9]. *)
Definition isDigit (c : byte) : bool := (48 <=? b2z c) && (b2z c <=? 57).

(** The bytes of [0-9A-Za-z-]. *)
Definition isAllowed (c : byte) : bool :=
  isDigit c || ((97 <=? b2z c) && (b2z c <=? 122))
  || ((65 <=? b2z c) && (b2z c <=? 90)) || (b2z c =? 45).

(** The value of a string of digits read in base ten, unbounded;
    [decimalFrom n s] reads [s] after digits of value [n]. *)
Fixpoint decimalFrom (n : Z) (s : string) : Z :=
  match s with
  | EmptyString => n
  | String c t => decimalFrom (10 * n + (b2z c - 48)) t
  end.

Definition decimal (s : string) : Z := decimalFrom 0 s.

(** [cut c s]: [s] before and after its first byte [c]. *)
Fixpoint cut (c : byte) (s : string) : option (string * string) :=
  match s with
  | EmptyString => None
  | String b t =>
    if Ascii.eqb b c then Some (EmptyString, t)
    else match cut c t with
         | Some (l, r) => Some (String b l, r)
         | None => None
         end
  end.

(** The separator made of the one byte [c]. *)
Definition sep1 (c : byte) : string := String c EmptyString.

(** [highPrefix n t]: [t] starts with [n] bytes of [0x80] or above. *)
Fixpoint highPrefix (n : nat) (t : string) : bool :=
  match n with
  | O => true
  | S k =>
    match t with
    | EmptyString => false
    | String c t' => (128 <=? b2z c) && highPrefix k t'
    end
  end.

(** The digits of a string, as a decimal number of the standard library. *)
Fixpoint uintOf (s : string) : Decimal.uint :=
  match s with
  | EmptyString => Decimal.Nil
  | String c t =>
    let d := b2z c - 48 in
    if d =? 0 then Decimal.D0 (uintOf t)
    else if d =? 1 then Decimal.D1 (uintOf t)
    else if d =? 2 then Decimal.D2 (uintOf t)
    else if d =? 3 then Decimal.D3 (uintOf t)
    else if d =? 4 then Decimal.D4 (uintOf t)
    else if d =? 5 then Decimal.D5 (uintOf t)
    else if d =? 6 then Decimal.D6 (uintOf t)
    else if d =? 7 then Decimal.D7 (uintOf t)
    else if d =? 8 then Decimal.D8 (uintOf t)
    else Decimal.D9 (uintOf t)
  end.

Section Notions.

Variable isPrintWide : Z -> bool.

Local Open Scope string_scope.

(** The third piece cut at its first [+], and what is left of it cut at its
    first [-]; an absent suffix is the empty string, the zero value of the
    fields [metadata] and [pre]. *)
Definition cutMeta (p2 : string) : string * string :=
  match cut "+"%char p2 with
  | Some (l, m) => (l, m)
  | None => (p2, "")
  end.

Definition cutPre (x : string) : string * string :=
  match cut "-"%char x with
  | Some (l, r) => (l, r)
  | None => (x, "")
  end.

Definition patchOf (p2 : string) : string := fst (cutPre (fst (cutMeta p2))).
Definition preOf (p2 : string) : string := snd (cutPre (fst (cutMeta p2))).
Definition metaOf (p2 : string) : string := snd (cutMeta p2).

(** The condition [len(p) > 1 && p[0] == '0']. *)
Definition startsZero (p : string) : bool :=
  match p with
  | String c (String _ _) => Ascii.eqb c "0"%char
  | _ => false
  end.

(** What is wrong with a core segment, if anything: the test on the
    characters comes first. *)
Definition segFault (p : string) : option error :=
  if negb (allBytes isDigit p) then Some ErrInvalidCharacters
  else if startsZero p then Some ErrSegmentStartsZero
  else None.

(** A name between double quotes, as [%q] prints it. *)
Definition quoted (name : string) : string := String "034" (name ++ String "034" "").

(** The message of the first loop for the error [e] on the segment [name]. *)
Definition segMessage (e : error) (name : string) : string :=
  match e with
  | ErrInvalidCharacters => "Illegal non-numeric characters found in " ++ quoted name ++ " part"
  | _ => "Illegal leading 0 found in " ++ quoted name ++ " part"
  end.

(** The messages of the conversions. *)
Definition foundLine (name : string) (n : Z) : string :=
  "Found " ++ name ++ " version of " ++ strconv.FormatInt n.

Definition parseFailLine (name : string) : string :=
  "Unable to parse " ++ name ++ " part. Must be valid numeric characters [0-9]".


(** An identifier of the pre-release passes when, being all digits, it has
    no leading zero, and otherwise when it is made of the allowed bytes; one
    of the metadata passes when it is made of the allowed bytes. *)
Definition preOk (p : string) : bool :=
  if allBytes isDigit p then negb (startsZero p) else allBytes isAllowed p.

Definition metaOk (p : string) : bool := allBytes isAllowed p.

(** The error and the message of an identifier of the pre-release that
    does not pass, and the message of one of the metadata. *)
Definition preFault (p : string) : error :=
  if allBytes isDigit p then ErrSegmentStartsZero else ErrInvalidCharacters.

Definition preFaultLine (p : string) : string :=
  if allBytes isDigit p then
    "Illegal leading 0 found in pre-release numeric part " ++ fmt.q isPrintWide p
  else
    "Illegal characters found in pre-release non-numeric part "
    ++ fmt.q isPrintWide p ++ ". Must be [0-9A-Za-z-]".

Definition metaFaultLine (p : string) : string :=
  "Illegal characters found in metadata part " ++ fmt.q isPrintWide p
  ++ ". Must be [0-9A-Za-z-]".

(** The two lines of a pre-release, and of a metadata, that pass. *)
Definition preLines (pre : string) : list string :=
  ["Version is a pre-release version rather than a stable release version with a pre-release identifier of "
   ++ fmt.q isPrintWide pre; semver.preNotice].

Definition metaLines (meta : string) : list string :=
  ["Found build metadate on version of " ++ fmt.q isPrintWide meta; semver.metaNotice].

(** Lines 120-132 alone. *)
Definition metaStage (meta : string) (messages : list string) : exec semver.result :=
  if negb (meta =? "") then
    let* r := semver.checkMeta isPrintWide (strings.Split meta ".") messages in
    match r with
    | Some ret => Ret ret
    | None => Ret (None, (messages ++ metaLines meta)%list)
    end
  else Ret (None, messages).

(** A core segment that passes both tests of the first loop. *)
Definition clean (p : string) : Prop := allBytes isDigit p = true /\ startsZero p = false.

(** A core segment that also converts: it is not empty and its value fits. *)
Definition converts (p : string) : Prop :=
  clean p /\ p <> "" /\ (decimal p <= strconv.maxUint64)%Z.

(** The three lines of a version whose core converts. *)
Definition foundLines (p0 p1 p : string) : list string :=
  [foundLine "major" (decimal p0); foundLine "minor" (decimal p1);
   foundLine "patch" (decimal p)].

(** The lines of the suffixes of a valid version. *)
Definition suffixLines (pre meta : string) : list string :=
  ((if pre =? "" then [] else preLines pre)
   ++ (if meta =? "" then [] else metaLines meta))%list.

End Notions.

(** What [validate] hands to [Validate]. *)
Definition handed (withV : bool) (ver : string) : string :=
  if withV then strings.TrimPrefix ver "v" else ver.

(** A table with no printable rune above Latin-1, for the examples: their
    inputs are ASCII, so the table is never consulted. *)
Definition latin1Table : Z -> bool := fun _ => false.

(** The writing of a version: the core, then the pre-release after a
    hyphen and the metadata after a plus sign, when there are any. *)
Definition render (maj min pat : string) (pre meta : option string) : string :=
  (maj ++ "." ++ min ++ "." ++ pat
   ++ match pre with Some p => "-" ++ p | None => "" end
   ++ match meta with Some m => "+" ++ m | None => "" end)%string.

(** The identifiers of a suffix, when there is one, all satisfy [ok]. *)
Definition suffixOk (ok : string -> bool) (suffix : option string) : Prop :=
  match suffix with
  | Some s => Forall (fun id => ok id = true) (strings.Split s ".")
  | None => True
  end.

(** * Verification

    ** Bytes, bit operations and UTF-8 *)

Lemma b2z_range (b : byte) : 0 <= b2z b < 256.
Proof.
  unfold b2z. pose proof (N_ascii_bounded b). lia.
Qed.

Lemma z2b_b2z (b : byte) : z2b (b2z b) = b.
Proof.
  unfold z2b. rewrite Z.mod_small by apply b2z_range.
  unfold b2z. rewrite N2Z.id. apply ascii_N_embedding.
Qed.

Lemma b2z_z2b (z : Z) : b2z (z2b z) = z mod 256.
Proof.
  unfold b2z, z2b.
  assert (0 <= z mod 256 < 256) by (apply Z.mod_pos_bound; lia).
  rewrite N_ascii_embedding by lia. lia.
Qed.

Lemma b2z_inj (a b : byte) : b2z a = b2z b -> a = b.
Proof.
  intros H. rewrite <- (z2b_b2z a), <- (z2b_b2z b). now rewrite H.
Qed.

Lemma lor_ge_128 (a b : Z) : 0 <= a -> 0 <= b -> 128 <= a -> 128 <= Z.lor a b.
Proof.
  intros Ha Hb H.
  assert (Hn : 0 <= Z.lor a b) by (apply Z.lor_nonneg; lia).
  destruct (Z_lt_le_dec (Z.lor a b) 128) as [Hlt|]; [exfalso | lia].
  assert (H7 : Z.log2 128 <= Z.log2 a) by (apply Z.log2_le_mono; lia).
  assert (H6 : Z.log2 (Z.lor a b) <= Z.log2 127) by (apply Z.log2_le_mono; lia).
  rewrite Z.log2_lor in H6 by lia.
  change (Z.log2 128) with 7 in H7. change (Z.log2 127) with 6 in H6. lia.
Qed.

Lemma lor_ge_128_r (a b : Z) : 0 <= a -> 0 <= b -> 128 <= b -> 128 <= Z.lor a b.
Proof. intros. rewrite Z.lor_comm. now apply lor_ge_128. Qed.

Lemma b2z_z2b_lor_hi (a b : Z) :
  128 <= a < 256 -> 0 <= b -> 128 <= b2z (z2b (Z.lor a b)).
Proof.
  intros Ha Hb. rewrite b2z_z2b.
  change 256 with (2 ^ 8). rewrite <- Z.land_ones by lia.
  rewrite Z.land_lor_distr_l, !Z.land_ones by lia.
  change (2 ^ 8) with 256. rewrite (Z.mod_small a) by lia.
  apply lor_ge_128; try lia. apply Z.mod_pos_bound. lia.
Qed.


Lemma land_le_l (a b : Z) : 0 <= a -> Z.land a b <= a.
Proof.
  intros Ha.
  assert (Hd : Z.land (Z.ldiff a b) (Z.land a b) = 0).
  { apply Z.bits_inj'. intros n Hn.
    rewrite !Z.land_spec, Z.ldiff_spec, Z.bits_0.
    destruct (Z.testbit a n), (Z.testbit b n); reflexivity. }
  apply Z.add_nocarry_lor in Hd. rewrite Z.lor_ldiff_and in Hd.
  assert (0 <= Z.ldiff a b) by (apply Z.ldiff_nonneg; lia). lia.
Qed.

Lemma lor_lower (a b : Z) : 0 <= a -> 0 <= b -> a <= Z.lor a b /\ b <= Z.lor a b.
Proof.
  intros Ha Hb. pose proof (Z.add_lor_land a b).
  pose proof (land_le_l a b Ha). pose proof (land_le_l b a Hb) as Hl.
  rewrite Z.land_comm in Hl. lia.
Qed.

Lemma land_mask (a : Z) (n : Z) (m : Z) : 0 <= n -> m = Z.ones n -> Z.land a m = a mod 2 ^ n.
Proof. intros Hn ->. now apply Z.land_ones. Qed.

Ltac zcmp :=
  repeat match goal with
  | H : (_ <? _) = true |- _ => apply Z.ltb_lt in H
  | H : (_ <? _) = false |- _ => apply Z.ltb_ge in H
  | H : (_ <=? _) = true |- _ => apply Z.leb_le in H
  | H : (_ <=? _) = false |- _ => apply Z.leb_gt in H
  | H : (_ =? _) = true |- _ => apply Z.eqb_eq in H
  | H : (_ =? _) = false |- _ => apply Z.eqb_neq in H
  | H : (_ >=? _) = true |- _ => rewrite Z.geb_leb in H
  | H : (_ >=? _) = false |- _ => rewrite Z.geb_leb in H
  | H : (_ >? _) = true |- _ => rewrite Z.gtb_ltb in H
  | H : (_ >? _) = false |- _ => rewrite Z.gtb_ltb in H
  | H : (_ || _) = false |- _ => apply orb_false_elim in H; destruct H
  | H : (_ && _) = true |- _ => apply andb_prop in H; destruct H
  end.

Lemma lor_ge_l (k a b : Z) : 0 <= a -> 0 <= b -> k <= a -> k <= Z.lor a b.
Proof. intros Ha Hb H. pose proof (lor_lower a b Ha Hb). lia. Qed.

Lemma lor_ge_r (k a b : Z) : 0 <= a -> 0 <= b -> k <= b -> k <= Z.lor a b.
Proof. intros Ha Hb H. pose proof (lor_lower a b Ha Hb). lia. Qed.

Ltac zlia := Z.to_euclidean_division_equations; lia.

Ltac lor_nonneg := repeat (apply Z.lor_nonneg; split); zlia.

Ltac lor_ge :=
  first [ zlia
        | apply lor_ge_l; [lor_nonneg | lor_nonneg | lor_ge]
        | apply lor_ge_r; [lor_nonneg | lor_nonneg | lor_ge] ].

(** A rune decoded at a byte of [0x80] or above is never ASCII: overlong
    encodings are rejected by [first] and the accept ranges. *)
Lemma decoded_ge_128 (c : byte) (t : string) :
  128 <= b2z c -> 128 <= fst (utf8.DecodeRuneInString (String c t)).
Proof.
  intros Hc. pose proof (b2z_range c) as Hr.
  unfold utf8.DecodeRuneInString.
  set (s0 := b2z c) in *.
  assert (Hm2 : Z.land s0 utf8.mask2 = s0 mod 32)
    by (apply (land_mask s0 5); [lia | reflexivity]).
  assert (Hm3 : Z.land s0 utf8.mask3 = s0 mod 16)
    by (apply (land_mask s0 4); [lia | reflexivity]).
  assert (Hm4 : Z.land s0 utf8.mask4 = s0 mod 8)
    by (apply (land_mask s0 3); [lia | reflexivity]).
  assert (Hx : forall a, Z.land a utf8.maskx = a mod 64)
    by (intros a; apply (land_mask a 6); [lia | reflexivity]).
  unfold utf8.first.
  repeat match goal with
  | |- context [if ?b then _ else _] =>
      match b with
      | context [s0] => destruct b eqn:?
      end
  end; zcmp; cbn [fst]; try (unfold utf8.RuneError; lia).
  all: repeat match goal with
    | |- context [Z.land ?a 7] =>
        let v := eval vm_compute in (Z.land a 7) in change (Z.land a 7) with v
    | |- context [utf8.acceptRanges ?a] =>
        let v := eval vm_compute in (utf8.acceptRanges a) in
        change (utf8.acceptRanges a) with v
    end.
  all: cbn [fst snd].
  all: repeat match goal with
    | |- context [match ?u with EmptyString => _ | String _ _ => _ end] =>
        destruct u
    | |- context [if ?b then _ else _] => destruct b eqn:?
    end; cbn [fst]; zcmp; try (unfold utf8.RuneError; lia).
  all: rewrite ?Hm2, ?Hm3, ?Hm4, ?Hx, ?Z.shiftl_mul_pow2 by lia.
  all: unfold utf8.locb, utf8.hicb in *.
  all: clear Hm2 Hm3 Hm4 Hx.
  all: lor_ge.
Qed.

(** ** [containsOnly] on an ASCII alphabet is a test on bytes *)

Lemma IndexByte_range (s : string) (c : byte) : -1 <= strings.IndexByte s c.
Proof.
  induction s as [|b t IH]; cbn; [lia|].
  destruct (Ascii.eqb b c); [lia|]. destruct (_ <? 0); lia.
Qed.

Lemma IndexByte_ascii_absent (comp : string) (c : byte) :
  allBytes isASCII comp = true -> 128 <= b2z c -> strings.IndexByte comp c = -1.
Proof.
  induction comp as [|b t IH]; cbn; [reflexivity|].
  intros H Hc. apply andb_prop in H as [Hb Ht]. unfold isASCII in Hb. zcmp.
  destruct (Ascii.eqb_spec b c) as [->|_]; [lia|].
  rewrite IH by assumption. reflexivity.
Qed.

Lemma Index_absent (s sub : string) (c : byte) :
  strings.IndexByte s c = -1 -> strings.Index s (String c sub) = -1.
Proof.
  induction s as [|b t IH]; cbn; [reflexivity|].
  destruct (Ascii.eqb_spec b c) as [->|Hne]; [discriminate|].
  destruct (ascii_dec c b) as [->|_]; [congruence|].
  pose proof (IndexByte_range t c).
  destruct (strings.IndexByte t c <? 0) eqn:E; zcmp; intros H'; [|lia].
  rewrite IH by lia. reflexivity.
Qed.

Lemma EncodeRune_first (r : Z) :
  128 <= r -> exists c sub, utf8.EncodeRune r = String c sub /\ 128 <= b2z c.
Proof.
  intros Hr. unfold utf8.EncodeRune, utf8.encode3.
  repeat match goal with
  | |- context [if ?b then _ else _] => destruct b eqn:?
  end; zcmp; unfold utf8.rune1Max in *; try lia;
  eexists; eexists; (split; [reflexivity|]);
  apply b2z_z2b_lor_hi; try lia; apply Z.shiftr_nonneg; unfold utf8.RuneError; lia.
Qed.

Lemma rangeFind_ascii_none (f : Z -> bool) (comp : string) (i : Z) :
  (forall r, 0 <= r < 128 -> f r = false) ->
  allBytes isASCII comp = true -> rangeFindFrom f comp 0 i = -1.
Proof.
  intros Hf. revert i. induction comp as [|b t IH]; intros i; cbn; [reflexivity|].
  intros H. apply andb_prop in H as [Hb Ht]. unfold isASCII in Hb. zcmp.
  pose proof (b2z_range b).
  unfold utf8.RuneSelf. destruct (b2z b <? 128) eqn:E; zcmp; [|lia].
  rewrite Hf by lia. cbn. apply IH. assumption.
Qed.

Lemma ContainsRune_ascii_high (comp : string) (r : Z) :
  allBytes isASCII comp = true -> 128 <= r -> strings.ContainsRune comp r = false.
Proof.
  intros Hc Hr. unfold strings.ContainsRune, strings.IndexRune, utf8.RuneSelf.
  destruct ((0 <=? r) && (r <? 128)) eqn:E1; zcmp; [lia|].
  destruct (r =? utf8.RuneError) eqn:E2.
  - unfold rangeFind. rewrite rangeFind_ascii_none; [reflexivity| |assumption].
    intros r' Hr'. unfold utf8.RuneError. apply Z.eqb_neq. lia.
  - destruct (negb (utf8.ValidRune r)); [reflexivity|].
    destruct (EncodeRune_first r Hr) as (c & sub & -> & Hc8).
    rewrite Index_absent; [reflexivity|].
    now apply IndexByte_ascii_absent.
Qed.

Lemma rangeFind_containsOnly (comp s : string) (i : Z) :
  allBytes isASCII comp = true -> 0 <= i ->
  (rangeFindFrom (fun r => negb (strings.ContainsRune comp r)) s 0 i =? -1)
  = allBytes (memByte comp) s.
Proof.
  intros Hc. revert i. induction s as [|b t IH]; intros i Hi; [reflexivity|].
  cbn [rangeFindFrom allBytes runeAt]. pose proof (b2z_range b).
  unfold utf8.RuneSelf. destruct (b2z b <? 128) eqn:E; zcmp.
  - unfold strings.ContainsRune at 1, strings.IndexRune at 1, utf8.RuneSelf.
    replace ((0 <=? b2z b) && (b2z b <? 128)) with true
      by (symmetry; apply andb_true_intro; split; [apply Z.leb_le|apply Z.ltb_lt]; lia).
    rewrite z2b_b2z. unfold memByte at 1.
    destruct (0 <=? strings.IndexByte comp b) eqn:Em; cbn [negb andb].
    + change (Z.to_nat 1 - 1)%nat with 0%nat. apply IH. lia.
    + apply Z.eqb_neq. lia.
  - destruct (utf8.DecodeRuneInString (String b t)) as [r w] eqn:Ed.
    pose proof (decoded_ge_128 b t ltac:(lia)) as Hge. rewrite Ed in Hge. cbn in Hge.
    rewrite ContainsRune_ascii_high by assumption. cbn [negb].
    unfold memByte at 1. rewrite IndexByte_ascii_absent by (assumption || lia).
    cbn. apply Z.eqb_neq. lia.
Qed.

Lemma containsOnly_bytes (comp s : string) :
  allBytes isASCII comp = true ->
  semver.containsOnly s comp = allBytes (memByte comp) s.
Proof.
  intros Hc. unfold semver.containsOnly, strings.IndexFunc, rangeFind.
  apply rangeFind_containsOnly; [assumption | lia].
Qed.

Lemma memByte_num (c : byte) : memByte semver.num c = isDigit c.
Proof. destruct c as [[] [] [] [] [] [] [] []]; reflexivity. Qed.

Lemma memByte_allowed (c : byte) : memByte semver.allowed c = isAllowed c.
Proof. destruct c as [[] [] [] [] [] [] [] []]; reflexivity. Qed.

Lemma allBytes_ext (P Q : byte -> bool) (s : string) :
  (forall c, P c = Q c) -> allBytes P s = allBytes Q s.
Proof. intros H. induction s as [|c t IH]; cbn; [reflexivity|]. now rewrite H, IH. Qed.

Lemma containsOnly_num (s : string) : semver.containsOnly s semver.num = allBytes isDigit s.
Proof.
  rewrite containsOnly_bytes by reflexivity. apply allBytes_ext, memByte_num.
Qed.

Lemma containsOnly_allowed (s : string) :
  semver.containsOnly s semver.allowed = allBytes isAllowed s.
Proof.
  rewrite containsOnly_bytes by reflexivity. apply allBytes_ext, memByte_allowed.
Qed.

(** ** [ParseUint] on a string of digits *)

Lemma decimalFrom_ge (s : string) (n : Z) :
  allBytes isDigit s = true -> 0 <= n -> n <= decimalFrom n s.
Proof.
  revert n. induction s as [|c t IH]; intros n H Hn; cbn in *; [lia|].
  apply andb_prop in H as [Hc Ht]. unfold isDigit in Hc. zcmp.
  specialize (IH (10 * n + (b2z c - 48)) Ht ltac:(lia)). lia.
Qed.

Lemma digitOf_digit (c : byte) : isDigit c = true -> strconv.digitOf (b2z c) = Some (b2z c - 48).
Proof.
  unfold isDigit, strconv.digitOf. intros H. now rewrite H.
Qed.

Lemma maxVal_eq : strconv.maxVal = strconv.maxUint64.
Proof. reflexivity. Qed.

Lemma parseLoop_digits (s0 bs : string) (n : Z) :
  allBytes isDigit bs = true -> 0 <= n <= strconv.maxUint64 ->
  strconv.parseLoop s0 bs n =
    if decimalFrom n bs <=? strconv.maxUint64 then (decimalFrom n bs, None)
    else (strconv.maxUint64, Some (NumError "ParseUint" s0 ErrRange)).
Proof.
  revert n. induction bs as [|c t IH]; intros n H Hn; cbn [strconv.parseLoop decimalFrom].
  - replace (n <=? strconv.maxUint64) with true by (symmetry; apply Z.leb_le; lia).
    reflexivity.
  - cbn in H. apply andb_prop in H as [Hc Ht].
    rewrite (digitOf_digit c Hc).
    pose proof (decimalFrom_ge t (10 * n + (b2z c - 48)) Ht) as Hge.
    unfold isDigit in Hc. zcmp.
    rewrite maxVal_eq. unfold strconv.rangeError, strconv.base, strconv.cutoff.
    change strconv.maxUint64 with 18446744073709551615 in *.
    change (18446744073709551615 / 10 + 1) with 1844674407370955162.
    change (2 ^ 64) with 18446744073709551616.
    destruct (b2z c - 48 >=? 10) eqn:E1; zcmp; [lia|].
    destruct (n >=? 1844674407370955162) eqn:E2; zcmp.
    + replace (decimalFrom (10 * n + (b2z c - 48)) t <=? 18446744073709551615) with false
        by (symmetry; apply Z.leb_gt; lia).
      reflexivity.
    + rewrite (Z.mod_small (n * 10)) by lia.
      destruct (Z_lt_le_dec (n * 10 + (b2z c - 48)) 18446744073709551616) as [Hs|Hb].
      * rewrite (Z.mod_small (n * 10 + (b2z c - 48))) by lia.
        replace ((n * 10 + (b2z c - 48) <? n * 10) || (n * 10 + (b2z c - 48) >? 18446744073709551615))
          with false
          by (symmetry; apply orb_false_intro; [apply Z.ltb_ge | rewrite Z.gtb_ltb; apply Z.ltb_ge]; lia).
        rewrite IH by (assumption || lia).
        replace (n * 10 + (b2z c - 48)) with (10 * n + (b2z c - 48)) by lia. reflexivity.
      * replace ((n * 10 + (b2z c - 48)) mod 18446744073709551616)
          with (n * 10 + (b2z c - 48) - 18446744073709551616)
          by (apply Z.mod_unique with 1; lia).
        replace (n * 10 + (b2z c - 48) - 18446744073709551616 <? n * 10) with true
          by (symmetry; apply Z.ltb_lt; lia).
        cbn [orb].
        replace (decimalFrom (10 * n + (b2z c - 48)) t <=? 18446744073709551615) with false
          by (symmetry; apply Z.leb_gt; lia).
        reflexivity.
Qed.

Lemma ParseUint_digits (s : string) :
  s <> EmptyString -> allBytes isDigit s = true ->
  strconv.ParseUint s =
    if decimal s <=? strconv.maxUint64 then (decimal s, None)
    else (strconv.maxUint64, Some (NumError "ParseUint" s ErrRange)).
Proof.
  intros Hne Hd. unfold strconv.ParseUint, decimal.
  destruct s; [congruence|]. apply parseLoop_digits; [assumption|].
  unfold strconv.maxUint64. lia.
Qed.

Lemma ParseUint_empty : strconv.ParseUint "" = (0, Some (NumError "ParseUint" "" ErrSyntax)).
Proof. reflexivity. Qed.

(** ** Splitting on a one-byte separator *)

Lemma Index_sep1 (s : string) (c : byte) : strings.Index s (sep1 c) = strings.IndexByte s c.
Proof.
  induction s as [|b t IH]; cbn; [reflexivity|].
  destruct (ascii_dec c b) as [->|Hne].
  - rewrite Ascii.eqb_refl. now destruct t.
  - destruct (Ascii.eqb_spec b c) as [->|_]; [congruence|].
    cbn in IH. rewrite IH. reflexivity.
Qed.

Lemma IndexByte_cut (s : string) (c : byte) :
  match cut c s with
  | Some (l, r) =>
      strings.IndexByte s c = len l /\ sliceTo s (String.length l) = l
      /\ sliceFrom s (S (String.length l)) = r
  | None => strings.IndexByte s c = -1
  end.
Proof.
  induction s as [|b t IH]; cbn; [reflexivity|].
  destruct (Ascii.eqb b c); [repeat split; reflexivity|].
  destruct (cut c t) as [[l r]|].
  - destruct IH as (Hi & Hl & Hr). rewrite Hi. unfold len. cbn.
    replace (Z.of_nat (String.length l) <? 0) with false by (symmetry; apply Z.ltb_ge; lia).
    repeat split; [lia | now rewrite Hl | assumption].
  - rewrite IH. reflexivity.
Qed.

Lemma splitLoop_cut (k : nat) (s : string) (c : byte) :
  strings.splitLoop (S k) s (sep1 c) =
    match cut c s with
    | Some (l, r) => l :: strings.splitLoop k r (sep1 c)
    | None => [s]
    end.
Proof.
  cbn [strings.splitLoop]. rewrite Index_sep1.
  pose proof (IndexByte_cut s c) as H. destruct (cut c s) as [[l r]|].
  - destruct H as (Hi & Hl & Hr). rewrite Hi. unfold len.
    replace (Z.of_nat (String.length l) <? 0) with false by (symmetry; apply Z.ltb_ge; lia).
    rewrite Nat2Z.id.
    replace (Z.to_nat (Z.of_nat (String.length l) + Z.of_nat (String.length (sep1 c))))
      with (S (String.length l)) by (cbn; lia).
    now rewrite Hl, Hr.
  - rewrite H. reflexivity.
Qed.

Lemma cut_app (c : byte) (s l r : string) :
  cut c s = Some (l, r) -> s = (l ++ String c r)%string /\ cut c l = None.
Proof.
  revert l. induction s as [|b t IH]; intros l; cbn; [discriminate|].
  destruct (Ascii.eqb_spec b c) as [->|Hne].
  - intros [= <- <-]. now cbn.
  - destruct (cut c t) as [[l' r']|]; [|discriminate].
    intros [= <- <-]. destruct (IH l' eq_refl) as [-> Hn]. cbn.
    destruct (Ascii.eqb_spec b c); [congruence|]. now rewrite Hn.
Qed.

Lemma cut_intro (c : byte) (l r : string) :
  cut c l = None -> cut c (l ++ String c r) = Some (l, r).
Proof.
  induction l as [|b t IH]; cbn.
  - now rewrite Ascii.eqb_refl.
  - destruct (Ascii.eqb b c); [discriminate|].
    destruct (cut c t) as [[? ?]|]; [discriminate|]. intros _. now rewrite IH.
Qed.

Lemma cut_None_bytes (c : byte) (s : string) :
  cut c s = None <-> allBytes (fun b => negb (Ascii.eqb b c)) s = true.
Proof.
  induction s as [|b t IH]; cbn; [tauto|].
  destruct (Ascii.eqb b c); cbn; [split; discriminate|].
  destruct (cut c t) as [[? ?]|]; [|tauto].
  split; [discriminate|]. intros H. apply IH in H. discriminate.
Qed.

Lemma length_app (s t : string) :
  String.length (s ++ t) = (String.length s + String.length t)%nat.
Proof. induction s as [|b s IH]; cbn; [reflexivity|]. now rewrite IH. Qed.

Lemma cut_length (c : byte) (s l r : string) :
  cut c s = Some (l, r) -> String.length s = S (String.length l + String.length r).
Proof.
  intros H. apply cut_app in H as [-> _]. rewrite length_app. cbn. lia.
Qed.

Lemma countByte_cut (c : byte) (s : string) :
  strings.countByte s c =
    match cut c s with
    | Some (_, r) => 1 + strings.countByte r c
    | None => 0
    end.
Proof.
  induction s as [|b t IH]; cbn; [reflexivity|].
  destruct (Ascii.eqb b c); [reflexivity|].
  rewrite IH. now destruct (cut c t) as [[? ?]|].
Qed.

(** [SplitN(s, sep, 3)] of a non-empty string, by cuts. *)
Lemma SplitN3_cut (s : string) (c : byte) :
  s <> EmptyString ->
  strings.SplitN s (sep1 c) 3 =
    match cut c s with
    | None => [s]
    | Some (a, r) =>
      match cut c r with
      | None => [a; r]
      | Some (b, r') => [a; b; r']
      end
    end.
Proof.
  intros Hs. unfold strings.SplitN, strings.genSplit. cbn [Z.eqb Z.ltb Z.compare].
  destruct s as [|b0 [|b1 t]]; [congruence| |].
  - change (3 >? len (String b0 "") + 1) with true. cbv iota.
    change (Z.to_nat (len (String b0 "") + 1 - 1)) with 1%nat.
    rewrite splitLoop_cut. cbn. destruct (Ascii.eqb b0 c); reflexivity.
  - replace (3 >? len (String b0 (String b1 t)) + 1) with false
      by (symmetry; rewrite Z.gtb_ltb; apply Z.ltb_ge; unfold len; cbn [String.length]; lia).
    change (Z.to_nat (3 - 1)) with 2%nat.
    rewrite splitLoop_cut. destruct (cut c _) as [[a r]|]; [|reflexivity].
    rewrite splitLoop_cut. destruct (cut c r) as [[b r']|]; reflexivity.
Qed.

(** [SplitN(s, sep, 2)], by a cut. *)
Lemma SplitN2_cut (s : string) (c : byte) :
  strings.SplitN s (sep1 c) 2 =
    match cut c s with
    | None => [s]
    | Some (l, r) => [l; r]
    end.
Proof.
  unfold strings.SplitN, strings.genSplit. cbn [Z.eqb Z.ltb Z.compare].
  destruct s as [|b0 t]; [reflexivity|].
  replace (2 >? len (String b0 t) + 1) with false
    by (symmetry; rewrite Z.gtb_ltb; apply Z.ltb_ge; unfold len; cbn [String.length]; lia).
  change (Z.to_nat (2 - 1)) with 1%nat.
  rewrite splitLoop_cut. now destruct (cut c _) as [[a r]|].
Qed.

Lemma countByte_le (s : string) (c : byte) : 0 <= strings.countByte s c <= len s.
Proof.
  unfold len. induction s as [|b t IH]; cbn [strings.countByte String.length]; [lia|].
  destruct (Ascii.eqb b c); lia.
Qed.

Lemma splitLoop_length (k : nat) (s : string) (c : byte) :
  lenS (strings.splitLoop k s (sep1 c)) = Z.min (Z.of_nat k) (strings.countByte s c) + 1.
Proof.
  revert s. induction k as [|k IH]; intros s.
  - cbn. pose proof (countByte_le s c). unfold lenS. cbn. lia.
  - rewrite splitLoop_cut, (countByte_cut c s).
    destruct (cut c s) as [[l r]|]; unfold lenS in *; cbn [length].
    + specialize (IH r). pose proof (countByte_le r c). lia.
    + cbn. lia.
Qed.

(** The number of pieces of [Split(s, sep)]. *)
Lemma Split_length (s : string) (c : byte) :
  lenS (strings.Split s (sep1 c)) = strings.countByte s c + 1.
Proof.
  unfold strings.Split, strings.genSplit. cbn [Z.eqb Z.ltb Z.compare].
  unfold strings.Count, sep1. pose proof (countByte_le s c).
  replace (strings.countByte s c + 1 >? len s + 1) with false
    by (symmetry; rewrite Z.gtb_ltb; apply Z.ltb_ge; lia).
  change (String c "") with (sep1 c). rewrite splitLoop_length. lia.
Qed.

(** The number of pieces of [SplitN(s, sep, 3)]. *)
Lemma SplitN3_length (s : string) (c : byte) :
  s <> EmptyString ->
  lenS (strings.SplitN s (sep1 c) 3) = Z.min 2 (strings.countByte s c) + 1.
Proof.
  intros Hs. rewrite SplitN3_cut by assumption. rewrite (countByte_cut c s).
  destruct (cut c s) as [[a r]|]; [|reflexivity].
  rewrite (countByte_cut c r). destruct (cut c r) as [[b r']|]; unfold lenS; cbn [length].
  - pose proof (countByte_le r' c). lia.
  - lia.
Qed.

(** ** [ContainsAny] on an ASCII alphabet is a test on bytes *)

(** The bytes a decoded rune spans after its first are continuation bytes. *)
Lemma decoded_width (c : byte) (t : string) :
  1 <= snd (utf8.DecodeRuneInString (String c t))
  /\ highPrefix (Z.to_nat (snd (utf8.DecodeRuneInString (String c t))) - 1) t = true.
Proof.
  unfold utf8.DecodeRuneInString.
  set (s0 := b2z c) in *.
  unfold utf8.first.
  repeat match goal with
  | |- context [if ?b then _ else _] =>
      match b with
      | context [s0] => destruct b eqn:?
      end
  end; cbn [snd]; try (split; [lia | reflexivity]).
  all: repeat match goal with
    | |- context [Z.land ?a 7] =>
        let v := eval vm_compute in (Z.land a 7) in change (Z.land a 7) with v
    | |- context [utf8.acceptRanges ?a] =>
        let v := eval vm_compute in (utf8.acceptRanges a) in
        change (utf8.acceptRanges a) with v
    end.
  all: cbn [fst snd].
  all: repeat match goal with
    | |- context [match ?u with EmptyString => _ | String _ _ => _ end] =>
        destruct u
    | |- context [if ?b then _ else _] => destruct b eqn:?
    end; cbn [snd]; try (split; [lia | reflexivity]).
  all: zcmp; unfold utf8.locb, utf8.hicb in *.
  all: split; [lia|].
  all: cbn [Z.to_nat Pos.to_nat Pos.iter_op Nat.add Nat.sub highPrefix].
  all: repeat (apply andb_true_intro; split); try reflexivity; apply Z.leb_le; lia.
Qed.

Lemma rangeFindFrom_range (f : Z -> bool) (s : string) (skip : nat) (i : Z) :
  0 <= i -> rangeFindFrom f s skip i = -1 \/ i <= rangeFindFrom f s skip i.
Proof.
  revert skip i. induction s as [|b t IH]; intros skip i Hi; cbn [rangeFindFrom]; [now left|].
  destruct skip as [|k].
  - destruct (runeAt (String b t)) as [r w]. destruct (f r); [right; lia|].
    destruct (IH (Z.to_nat w - 1)%nat (i + 1) ltac:(lia)); [now left | right; lia].
  - destruct (IH k (i + 1) ltac:(lia)); [now left | right; lia].
Qed.

Lemma rangeFindFrom_bytes (f : Z -> bool) (s : string) (skip : nat) (i : Z) :
  (forall r, 128 <= r -> f r = false) ->
  0 <= i -> highPrefix skip s = true ->
  (rangeFindFrom f s skip i =? -1)
  = allBytes (fun b => negb (isASCII b && f (b2z b))) s.
Proof.
  intros Hf. revert skip i. induction s as [|b t IH]; intros skip i Hi Hp; [reflexivity|].
  cbn [rangeFindFrom allBytes]. pose proof (b2z_range b).
  destruct skip as [|k].
  - cbn [runeAt]. unfold utf8.RuneSelf, isASCII at 1.
    destruct (b2z b <? 128) eqn:E; zcmp; cbn [andb].
    + destruct (f (b2z b)); cbn [negb andb].
      * apply Z.eqb_neq. lia.
      * change (Z.to_nat 1 - 1)%nat with 0%nat. now apply IH; [lia|].
    + pose proof (decoded_ge_128 b t ltac:(lia)) as Hge.
      pose proof (decoded_width b t) as [Hw Hh].
      destruct (utf8.DecodeRuneInString (String b t)) as [r w]. cbn [fst snd] in *.
      rewrite Hf by assumption. cbn [negb andb]. apply IH; [lia | assumption].
  - cbn [highPrefix] in Hp. apply andb_prop in Hp as [Hb Hp]. zcmp.
    unfold isASCII at 1. replace (b2z b <? 128) with false by (symmetry; apply Z.ltb_ge; lia).
    cbn [negb andb]. apply IH; [lia | assumption].
Qed.

Lemma ContainsAny_bytes (s chars : string) :
  (String.length chars >= 2)%nat -> allBytes isASCII chars = true ->
  strings.ContainsAny s chars = negb (allBytes (fun b => negb (memByte chars b)) s).
Proof.
  intros Hl Hc. unfold strings.ContainsAny, strings.IndexAny.
  destruct chars as [|c0 [|c1 t]]; [cbn in Hl; lia | cbn in Hl; lia |].
  set (chars := String c0 (String c1 t)) in *.
  unfold rangeFind.
  pose proof (rangeFindFrom_range (fun c => 0 <=? strings.IndexRune chars c) s 0 0 ltac:(lia)) as Hr.
  pose proof (rangeFindFrom_bytes (fun c => 0 <=? strings.IndexRune chars c) s 0 0
                (fun r Hr => ContainsRune_ascii_high chars r Hc Hr) ltac:(lia) eq_refl) as Hb.
  rewrite (allBytes_ext _ (fun b => negb (memByte chars b))) in Hb.
  - rewrite <- Hb. destruct Hr as [-> | Hr]; [reflexivity|].
    replace (0 <=? _) with true by (symmetry; apply Z.leb_le; lia).
    symmetry. apply negb_true_iff, Z.eqb_neq. lia.
  - intros b. f_equal. unfold isASCII. pose proof (b2z_range b).
    destruct (b2z b <? 128) eqn:E; zcmp; cbn [andb].
    + unfold strings.IndexRune, utf8.RuneSelf.
      replace ((0 <=? b2z b) && (b2z b <? 128)) with true
        by (symmetry; apply andb_true_intro; split; [apply Z.leb_le|apply Z.ltb_lt]; lia).
      now rewrite z2b_b2z.
    + unfold memByte. now rewrite IndexByte_ascii_absent by (assumption || lia).
Qed.

Lemma ContainsAny_false_cut (s : string) :
  strings.ContainsAny s "-+"%string = false ->
  cut "+"%char s = None /\ cut "-"%char s = None.
Proof.
  rewrite ContainsAny_bytes by (cbn; lia || reflexivity).
  intros H. apply negb_false_iff in H.
  split; apply cut_None_bytes; revert H; induction s as [|b t IH]; cbn; try reflexivity;
    intros H; apply andb_prop in H as [Hb Ht]; rewrite (IH Ht), andb_true_r;
    destruct (Ascii.eqb_spec b "+"%char), (Ascii.eqb_spec b "-"%char); subst; try reflexivity; discriminate.
Qed.

(** ** The stages of [Validate] *)

Section Stages.

Variable isPrintWide : Z -> bool.

Local Open Scope string_scope.

Lemma setAt_third {A : Type} (a b c x : A) : setAt [a; b; c] 2 x = Ret [a; b; x].
Proof.
  unfold setAt. destruct (decide _) as [|Hn]; [reflexivity|]. cbn in Hn. lia.
Qed.

Lemma trimSuffixes_spec (p0 p1 p2 : string) :
  semver.trimSuffixes semver.zeroVersion [p0; p1; p2]
  = Ret (semver.mkVersion 0 0 0 (preOf p2) (metaOf p2), [p0; p1; patchOf p2]).
Proof.
  unfold semver.trimSuffixes, patchOf, preOf, metaOf, cutMeta, cutPre.
  cbn [at_ lookup list_lookup bind].
  destruct (strings.ContainsAny p2 "-+") eqn:E.
  - change "+" with (sep1 "+"%char). change "-" with (sep1 "-"%char). rewrite SplitN2_cut.
    destruct (cut "+"%char p2) as [[l m]|]; unfold lenS; cbn [length at_ lookup list_lookup bind];
      rewrite ?setAt_third;
      change (Z.of_nat 2 >? 1)%Z with true; change (Z.of_nat 1 >? 1)%Z with false;
      cbn [bind at_ lookup list_lookup]; rewrite SplitN2_cut;
      destruct (cut "-"%char _) as [[l' r']|]; cbn [length at_ lookup list_lookup bind];
      rewrite ?setAt_third; reflexivity.
  - apply ContainsAny_false_cut in E as [E1 E2].
    rewrite E1. cbn [fst snd]. rewrite E2. reflexivity.
Qed.

Lemma leadingZero_spec (p : string) : semver.leadingZero p = Ret (startsZero p).
Proof.
  unfold semver.leadingZero, len. destruct p as [|c [|c' t]]; try reflexivity.
  replace (Z.of_nat (String.length (String c (String c' t))) >? 1)%Z with true
    by (symmetry; rewrite Z.gtb_ltb; apply Z.ltb_lt; cbn [String.length]; lia).
  reflexivity.
Qed.

Lemma checkSegments_cons (i : Z) (p : string) (rest messages : list string) (name : string) :
  semver.numToName i = Ret name ->
  fmt.q isPrintWide name = quoted name ->
  semver.checkSegments isPrintWide i (p :: rest) messages =
    match segFault p with
    | Some e => Ret (Some (Some e, (messages ++ [segMessage e name])%list))
    | None => semver.checkSegments isPrintWide (i + 1) rest messages
    end.
Proof.
  intros Hn Hq. cbn [semver.checkSegments]. unfold segFault.
  rewrite containsOnly_num, leadingZero_spec, Hn. cbn [bind]. rewrite Hq.
  destruct (allBytes isDigit p); cbn [negb]; [|reflexivity].
  destruct (startsZero p); reflexivity.
Qed.

Lemma checkSegments3 (a b c : string) :
  semver.checkSegments isPrintWide 0 [a; b; c] [] =
    match segFault a with
    | Some e => Ret (Some (Some e, [segMessage e "major"]))
    | None =>
      match segFault b with
      | Some e => Ret (Some (Some e, [segMessage e "minor"]))
      | None =>
        match segFault c with
        | Some e => Ret (Some (Some e, [segMessage e "patch"]))
        | None => Ret None
        end
      end
    end.
Proof.
  rewrite (checkSegments_cons 0 a _ _ "major") by reflexivity.
  destruct (segFault a); [reflexivity|].
  rewrite (checkSegments_cons (0 + 1) b _ _ "minor") by reflexivity.
  destruct (segFault b); [reflexivity|].
  rewrite (checkSegments_cons (0 + 1 + 1) c _ _ "patch") by reflexivity.
  destruct (segFault c); reflexivity.
Qed.

Lemma parseSegments_spec (v : semver.version) (a b c : string) (messages : list string) :
  semver.parseSegments v [a; b; c] messages =
    match strconv.ParseUint a with
    | (_, Some e) => Ret (inl (Some e, (messages ++ [parseFailLine "major"])%list))
    | (na, None) =>
      match strconv.ParseUint b with
      | (_, Some e) =>
          Ret (inl (Some e, (messages ++ [foundLine "major" na; parseFailLine "minor"])%list))
      | (nb, None) =>
        match strconv.ParseUint c with
        | (_, Some e) =>
            Ret (inl (Some e, (messages ++ [foundLine "major" na; foundLine "minor" nb;
                                            parseFailLine "patch"])%list))
        | (nc, None) =>
            Ret (inr (semver.mkVersion na nb nc (semver.pre v) (semver.metadata v),
                      (messages ++ [foundLine "major" na; foundLine "minor" nb;
                                    foundLine "patch" nc])%list))
        end
      end
    end.
Proof.
  unfold semver.parseSegments, appendS. cbn [at_ lookup list_lookup bind].
  destruct (strconv.ParseUint a) as [na [e|]]; [reflexivity|].
  destruct (strconv.ParseUint b) as [nb [e|]];
    [cbn; now rewrite <- app_assoc|].
  destruct (strconv.ParseUint c) as [nc [e|]]; cbn; now rewrite <- !app_assoc.
Qed.

Lemma checkPre_cons (p : string) (rest messages : list string) :
  semver.checkPre isPrintWide (p :: rest) messages =
    if preOk p then semver.checkPre isPrintWide rest messages
    else Ret (Some (Some (preFault p), (messages ++ [preFaultLine isPrintWide p])%list)).
Proof.
  cbn [semver.checkPre]. unfold preOk, preFault, preFaultLine.
  rewrite containsOnly_num, containsOnly_allowed, leadingZero_spec. cbn [bind].
  destruct (allBytes isDigit p).
  - destruct (startsZero p); reflexivity.
  - destruct (allBytes isAllowed p); reflexivity.
Qed.

Lemma checkPre_skip (before rest messages : list string) :
  Forall (fun p => preOk p = true) before ->
  semver.checkPre isPrintWide (before ++ rest)%list messages
  = semver.checkPre isPrintWide rest messages.
Proof.
  induction 1 as [|p before Hp _ IH]; [reflexivity|].
  cbn [app]. rewrite checkPre_cons, Hp. exact IH.
Qed.

Lemma checkPre_ok (ids messages : list string) :
  Forall (fun p => preOk p = true) ids ->
  semver.checkPre isPrintWide ids messages = Ret None.
Proof.
  intros H. rewrite <- (app_nil_r ids). now rewrite checkPre_skip.
Qed.

Lemma checkMeta_cons (p : string) (rest messages : list string) :
  semver.checkMeta isPrintWide (p :: rest) messages =
    if metaOk p then semver.checkMeta isPrintWide rest messages
    else Ret (Some (Some ErrInvalidCharacters, (messages ++ [metaFaultLine isPrintWide p])%list)).
Proof.
  cbn [semver.checkMeta]. unfold metaOk, metaFaultLine.
  rewrite containsOnly_allowed. destruct (allBytes isAllowed p); reflexivity.
Qed.

Lemma checkMeta_skip (before rest messages : list string) :
  Forall (fun p => metaOk p = true) before ->
  semver.checkMeta isPrintWide (before ++ rest)%list messages
  = semver.checkMeta isPrintWide rest messages.
Proof.
  induction 1 as [|p before Hp _ IH]; [reflexivity|].
  cbn [app]. rewrite checkMeta_cons, Hp. exact IH.
Qed.

Lemma checkMeta_ok (ids messages : list string) :
  Forall (fun p => metaOk p = true) ids ->
  semver.checkMeta isPrintWide ids messages = Ret None.
Proof.
  intros H. rewrite <- (app_nil_r ids). now rewrite checkMeta_skip.
Qed.

(** The loops either run to their end or return an error and the messages
    so far with one more. *)
Lemma checkPre_returns (ids messages : list string) :
  semver.checkPre isPrintWide ids messages = Ret None
  \/ exists e line, semver.checkPre isPrintWide ids messages
                    = Ret (Some (Some e, (messages ++ [line])%list)).
Proof.
  induction ids as [|p rest IH]; [now left|].
  rewrite checkPre_cons. destruct (preOk p); [exact IH|]. right. eauto.
Qed.

Lemma checkMeta_returns (ids messages : list string) :
  semver.checkMeta isPrintWide ids messages = Ret None
  \/ exists line, semver.checkMeta isPrintWide ids messages
                  = Ret (Some (Some ErrInvalidCharacters, (messages ++ [line])%list)).
Proof.
  induction ids as [|p rest IH]; [now left|].
  rewrite checkMeta_cons. destruct (metaOk p); [exact IH|]. right. eauto.
Qed.

Lemma validateSuffixes_spec (v : semver.version) (messages : list string) :
  semver.validateSuffixes isPrintWide v messages =
    if negb (semver.pre v =? "") then
      let* r := semver.checkPre isPrintWide (strings.Split (semver.pre v) ".") messages in
      match r with
      | Some ret => Ret ret
      | None => metaStage isPrintWide (semver.metadata v) (messages ++ preLines isPrintWide (semver.pre v))%list
      end
    else metaStage isPrintWide (semver.metadata v) messages.
Proof.
  unfold semver.validateSuffixes, metaStage, metaLines, preLines, appendS.
  destruct (negb (semver.pre v =? "")).
  - destruct (checkPre_returns (strings.Split (semver.pre v) ".") messages)
      as [-> | (e & line & ->)]; cbn [bind]; [|reflexivity].
    rewrite <- !app_assoc. cbn [app].
    destruct (negb (semver.metadata v =? "")); [|reflexivity].
    destruct (semver.checkMeta _ _ _) as [[ret|]|]; cbn [bind]; try reflexivity;
      now rewrite <- ?app_assoc.
  - cbn [bind]. destruct (negb (semver.metadata v =? "")); [|reflexivity].
    destruct (semver.checkMeta _ _ _) as [[ret|]|]; cbn [bind]; try reflexivity;
      now rewrite <- ?app_assoc.
Qed.

(** [Validate] on an input of three pieces, stage by stage. *)
Lemma Validate_three (ver p0 p1 p2 : string) :
  ver <> "" -> strings.SplitN ver "." 3 = [p0; p1; p2] ->
  semver.Validate isPrintWide ver =
    let* r := semver.checkSegments isPrintWide 0 [p0; p1; patchOf p2] [] in
    match r with
    | Some ret => Ret ret
    | None =>
      let* r := semver.parseSegments (semver.mkVersion 0 0 0 (preOf p2) (metaOf p2))
                                     [p0; p1; patchOf p2] [] in
      match r with
      | inl ret => Ret ret
      | inr (v, messages) => semver.validateSuffixes isPrintWide v messages
      end
    end.
Proof.
  intros Hne Hs. unfold semver.Validate.
  replace (len ver =? 0)%Z with false
    by (symmetry; apply Z.eqb_neq; unfold len; destruct ver; [congruence | cbn; lia]).
  rewrite Hs. change (negb (lenS [p0; p1; p2] =? 3)%Z) with false. cbv iota.
  rewrite trimSuffixes_spec. reflexivity.
Qed.

Lemma Validate_empty : semver.Validate isPrintWide "" = Ret (Some ErrEmptyString, []).
Proof. reflexivity. Qed.

Lemma Validate_count (ver : string) :
  ver <> "" -> lenS (strings.SplitN ver "." 3) <> 3%Z ->
  semver.Validate isPrintWide ver =
    Ret (Some ErrInvalidNumberParts,
         ["Found " ++ strconv.FormatInt (lenS (strings.SplitN ver "." 3))
          ++ " number of parts"]).
Proof.
  intros Hne Hs. unfold semver.Validate.
  replace (len ver =? 0)%Z with false
    by (symmetry; apply Z.eqb_neq; unfold len; destruct ver; [congruence | cbn; lia]).
  apply Z.eqb_neq in Hs. rewrite Hs. reflexivity.
Qed.

End Stages.

(** ** [Validate], outcome by outcome *)

Section Outcomes.

Variable isPrintWide : Z -> bool.

Local Open Scope string_scope.

Lemma segFault_None (p : string) : segFault p = None <-> clean p.
Proof.
  unfold segFault, clean. destruct (allBytes isDigit p), (startsZero p); cbn;
    split; try discriminate; try tauto; intros [? ?]; discriminate.
Qed.

Lemma segFault_chars (p : string) :
  allBytes isDigit p = false -> segFault p = Some ErrInvalidCharacters.
Proof. unfold segFault. now intros ->. Qed.

Lemma segFault_zero (p : string) :
  allBytes isDigit p = true -> startsZero p = true -> segFault p = Some ErrSegmentStartsZero.
Proof. unfold segFault. now intros -> ->. Qed.

Lemma ParseUint_converts (p : string) :
  converts p -> strconv.ParseUint p = (decimal p, None).
Proof.
  intros [[Hd _] [Hne Hle]]. rewrite ParseUint_digits by assumption.
  now replace (decimal p <=? strconv.maxUint64)%Z with true by (symmetry; apply Z.leb_le; lia).
Qed.

Lemma ParseUint_overflow (p : string) :
  allBytes isDigit p = true -> (decimal p > strconv.maxUint64)%Z ->
  strconv.ParseUint p = (strconv.maxUint64, Some (NumError "ParseUint" p ErrRange)).
Proof.
  intros Hd Hgt. assert (p <> "") by (intros ->; cbn in Hgt; unfold strconv.maxUint64 in Hgt; lia).
  rewrite ParseUint_digits by assumption.
  now replace (decimal p <=? strconv.maxUint64)%Z with false by (symmetry; apply Z.leb_gt; lia).
Qed.

(** The conversion of a clean segment fails on the empty segment and on a
    value above [maxUint64], and only then. *)
Lemma ParseUint_clean (p : string) :
  clean p ->
  (converts p /\ strconv.ParseUint p = (decimal p, None))
  \/ (p = "" /\ strconv.ParseUint p = (0%Z, Some (NumError "ParseUint" "" ErrSyntax)))
  \/ ((decimal p > strconv.maxUint64)%Z
      /\ strconv.ParseUint p = (strconv.maxUint64, Some (NumError "ParseUint" p ErrRange))).
Proof.
  intros Hc. destruct p as [|c t] eqn:Ep; [right; left; now split|]. rewrite <- Ep in *.
  assert (Hne : p <> "") by (rewrite Ep; discriminate).
  destruct (Z_le_gt_dec (decimal p) strconv.maxUint64) as [Hle|Hgt].
  - left. assert (converts p) by (repeat split; try apply Hc; assumption).
    split; [assumption | now apply ParseUint_converts].
  - right; right. split; [assumption|]. apply ParseUint_overflow; [apply Hc | assumption].
Qed.

(** The first loop decides the outcome as soon as a segment is at fault. *)
Lemma Validate_segments (ver p0 p1 p2 : string) :
  ver <> "" -> strings.SplitN ver "." 3 = [p0; p1; p2] ->
  semver.Validate isPrintWide ver =
    match segFault p0 with
    | Some e => Ret (Some e, [segMessage e "major"])
    | None =>
      match segFault p1 with
      | Some e => Ret (Some e, [segMessage e "minor"])
      | None =>
        match segFault (patchOf p2) with
        | Some e => Ret (Some e, [segMessage e "patch"])
        | None =>
          let* r := semver.parseSegments (semver.mkVersion 0 0 0 (preOf p2) (metaOf p2))
                                         [p0; p1; patchOf p2] [] in
          match r with
          | inl ret => Ret ret
          | inr (v, messages) => semver.validateSuffixes isPrintWide v messages
          end
        end
      end
    end.
Proof.
  intros Hne Hs. rewrite (Validate_three isPrintWide ver p0 p1 p2 Hne Hs), checkSegments3.
  destruct (segFault p0); [reflexivity|].
  destruct (segFault p1); [reflexivity|].
  destruct (segFault (patchOf p2)); reflexivity.
Qed.

(** Past the conversions, the suffixes decide. *)
Lemma Validate_core_ok (ver p0 p1 p2 : string) :
  ver <> "" -> strings.SplitN ver "." 3 = [p0; p1; p2] ->
  converts p0 -> converts p1 -> converts (patchOf p2) ->
  semver.Validate isPrintWide ver =
    semver.validateSuffixes isPrintWide
      (semver.mkVersion (decimal p0) (decimal p1) (decimal (patchOf p2)) (preOf p2) (metaOf p2))
      (foundLines p0 p1 (patchOf p2)).
Proof.
  intros Hne Hs H0 H1 H2. rewrite (Validate_segments ver p0 p1 p2 Hne Hs).
  rewrite (proj2 (segFault_None p0)), (proj2 (segFault_None p1)),
    (proj2 (segFault_None (patchOf p2))) by (apply H0 || apply H1 || apply H2).
  rewrite parseSegments_spec.
  rewrite (ParseUint_converts p0 H0), (ParseUint_converts p1 H1),
    (ParseUint_converts (patchOf p2) H2).
  reflexivity.
Qed.

Lemma metaStage_returns (meta : string) (messages : list string) :
  metaStage isPrintWide meta messages
    = Ret (None, (messages ++ (if meta =? "" then [] else metaLines isPrintWide meta))%list)
  \/ exists line, metaStage isPrintWide meta messages
                  = Ret (Some ErrInvalidCharacters, (messages ++ [line])%list).
Proof.
  unfold metaStage. destruct (meta =? ""); cbn [negb].
  - left. now rewrite app_nil_r.
  - destruct (checkMeta_returns isPrintWide (strings.Split meta ".") messages)
      as [-> | (line & ->)]; cbn [bind]; [now left | right; eauto].
Qed.

Lemma checkPre_outcome (ids messages : list string) :
  semver.checkPre isPrintWide ids messages = Ret None
  \/ exists e line, semver.checkPre isPrintWide ids messages
                    = Ret (Some (Some e, (messages ++ [line])%list))
                    /\ (e = ErrInvalidCharacters \/ e = ErrSegmentStartsZero).
Proof.
  induction ids as [|p rest IH]; [now left|].
  rewrite checkPre_cons. destruct (preOk p); [exact IH|]. right.
  exists (preFault p), (preFaultLine isPrintWide p). split; [reflexivity|].
  unfold preFault. destruct (allBytes isDigit p); [now right | now left].
Qed.

Lemma validateSuffixes_returns (v : semver.version) (messages : list string) :
  semver.validateSuffixes isPrintWide v messages
    = Ret (None, (messages ++ suffixLines isPrintWide (semver.pre v) (semver.metadata v))%list)
  \/ exists e rest line,
       semver.validateSuffixes isPrintWide v messages
       = Ret (Some e, (messages ++ rest ++ [line])%list)
       /\ (e = ErrInvalidCharacters \/ e = ErrSegmentStartsZero).
Proof.
  rewrite validateSuffixes_spec. unfold suffixLines.
  destruct (semver.pre v =? ""); cbn [negb].
  - destruct (metaStage_returns (semver.metadata v) messages) as [-> | (line & ->)].
    + now left.
    + right. exists ErrInvalidCharacters, [], line. split; [reflexivity | now left].
  - destruct (checkPre_outcome (strings.Split (semver.pre v) ".") messages)
      as [-> | (e & line & -> & He)]; cbn [bind].
    + destruct (metaStage_returns (semver.metadata v)
                  (messages ++ preLines isPrintWide (semver.pre v))%list)
        as [-> | (line & ->)].
      * left. now rewrite <- app_assoc.
      * right. exists ErrInvalidCharacters, (preLines isPrintWide (semver.pre v)), line.
        split; [now rewrite <- app_assoc | now left].
    + right. exists e, [], line. split; [reflexivity | assumption].
Qed.


Lemma SplitN3_shape (ver : string) :
  ver <> "" ->
  (exists a, strings.SplitN ver "." 3 = [a])
  \/ (exists a b, strings.SplitN ver "." 3 = [a; b])
  \/ (exists a b c, strings.SplitN ver "." 3 = [a; b; c]).
Proof.
  intros Hne. change "." with (sep1 "."%char). rewrite SplitN3_cut by assumption.
  destruct (cut _ ver) as [[a r]|]; [|left; eauto].
  destruct (cut _ r) as [[b r']|]; right; [right | left]; eauto.
Qed.

(** The outcome of the conversions of three clean segments. *)
Lemma parseSegments_clean (v : semver.version) (p0 p1 p : string) :
  clean p0 -> clean p1 -> clean p ->
  (converts p0 /\ converts p1 /\ converts p
   /\ semver.parseSegments v [p0; p1; p] []
      = Ret (inr (semver.mkVersion (decimal p0) (decimal p1) (decimal p)
                    (semver.pre v) (semver.metadata v),
                  foundLines p0 p1 p)))
  \/ exists s cause rest line,
       semver.parseSegments v [p0; p1; p] []
       = Ret (inl (Some (NumError "ParseUint" s cause), (rest ++ [line])%list)).
Proof.
  intros H0 H1 H2. rewrite parseSegments_spec.
  destruct (ParseUint_clean p0 H0) as [[C0 ->] | [[_ ->] | [_ ->]]];
    [| right; exists "", ErrSyntax, [], (parseFailLine "major"); reflexivity
     | right; exists p0, ErrRange, [], (parseFailLine "major"); reflexivity].
  destruct (ParseUint_clean p1 H1) as [[C1 ->] | [[_ ->] | [_ ->]]];
    [| right; exists "", ErrSyntax, [foundLine "major" (decimal p0)],
         (parseFailLine "minor"); reflexivity
     | right; exists p1, ErrRange, [foundLine "major" (decimal p0)],
         (parseFailLine "minor"); reflexivity].
  destruct (ParseUint_clean p H2) as [[C2 ->] | [[_ ->] | [_ ->]]];
    [| right; exists "", ErrSyntax,
         [foundLine "major" (decimal p0); foundLine "minor" (decimal p1)],
         (parseFailLine "patch"); reflexivity
     | right; exists p, ErrRange,
         [foundLine "major" (decimal p0); foundLine "minor" (decimal p1)],
         (parseFailLine "patch"); reflexivity].
  left. repeat split; try assumption; apply C0 || apply C1 || apply C2.
Qed.

(** [Validate] returns, and with at least one message unless its input is
    empty. *)
Lemma Validate_messages (ver : string) :
  ver <> "" ->
  exists e rest line, semver.Validate isPrintWide ver = Ret (e, (rest ++ [line])%list).
Proof.
  intros Hne.
  destruct (SplitN3_shape ver Hne) as [(a & Hs) | [(a & b & Hs) | (a & b & c & Hs)]].
  - rewrite Validate_count by (assumption || (rewrite Hs; discriminate)).
    eexists; exists []; eexists; reflexivity.
  - rewrite Validate_count by (assumption || (rewrite Hs; discriminate)).
    eexists; exists []; eexists; reflexivity.
  - rewrite (Validate_segments ver a b c Hne Hs).
    destruct (segFault a) as [e|] eqn:Ea; [eexists; exists []; eexists; reflexivity|].
    destruct (segFault b) as [e|] eqn:Eb; [eexists; exists []; eexists; reflexivity|].
    destruct (segFault (patchOf c)) as [e|] eqn:Ec; [eexists; exists []; eexists; reflexivity|].
    apply segFault_None in Ea, Eb, Ec.
    destruct (parseSegments_clean (semver.mkVersion 0 0 0 (preOf c) (metaOf c)) a b (patchOf c)
                Ea Eb Ec) as [(_ & _ & _ & ->) | (s & cause & rest & line & ->)];
      cbn [bind semver.pre semver.metadata].
    + destruct (validateSuffixes_returns
                  (semver.mkVersion (decimal a) (decimal b) (decimal (patchOf c))
                     (preOf c) (metaOf c)) (foundLines a b (patchOf c)))
        as [-> | (e & rest & line & -> & _)].
      * cbn [semver.pre semver.metadata].
        destruct (suffixLines isPrintWide (preOf c) (metaOf c)) as [|x xs] eqn:El using rev_ind.
        -- exists None, [foundLine "major" (decimal a); foundLine "minor" (decimal b)],
             (foundLine "patch" (decimal (patchOf c))). now rewrite app_nil_r.
        -- exists None, (foundLines a b (patchOf c) ++ xs)%list, x. now rewrite app_assoc.
      * exists (Some e), (foundLines a b (patchOf c) ++ rest)%list, line.
        now rewrite app_assoc.
    + eauto.
Qed.

Lemma Validate_returns (ver : string) :
  exists e messages, semver.Validate isPrintWide ver = Ret (e, messages).
Proof.
  destruct ver as [|c t] eqn:E; [eexists; eexists; reflexivity|].
  destruct (Validate_messages (String c t)) as (e & rest & line & H); [discriminate|]. eauto.
Qed.

(** What a valid version is. *)
Lemma Validate_valid_inv (ver : string) (messages : list string) :
  semver.Validate isPrintWide ver = Ret (None, messages) ->
  exists p0 p1 p2,
    strings.SplitN ver "." 3 = [p0; p1; p2]
    /\ converts p0 /\ converts p1 /\ converts (patchOf p2)
    /\ messages = (foundLines p0 p1 (patchOf p2) ++ suffixLines isPrintWide (preOf p2) (metaOf p2))%list.
Proof.
  intros H. destruct ver as [|c0 t0] eqn:Ev; [discriminate|]. rewrite <- Ev in *.
  assert (Hne : ver <> "") by (rewrite Ev; discriminate).
  destruct (SplitN3_shape ver Hne) as [(a & Hs) | [(a & b & Hs) | (a & b & c & Hs)]].
  - rewrite Validate_count in H by (assumption || (rewrite Hs; discriminate)). discriminate.
  - rewrite Validate_count in H by (assumption || (rewrite Hs; discriminate)). discriminate.
  - exists a, b, c. split; [assumption|].
    rewrite (Validate_segments ver a b c Hne Hs) in H.
    destruct (segFault a) as [e|] eqn:Ea; [discriminate|].
    destruct (segFault b) as [e|] eqn:Eb; [discriminate|].
    destruct (segFault (patchOf c)) as [e|] eqn:Ec; [discriminate|].
    apply segFault_None in Ea, Eb, Ec.
    destruct (parseSegments_clean (semver.mkVersion 0 0 0 (preOf c) (metaOf c)) a b (patchOf c)
                Ea Eb Ec) as [(C0 & C1 & C2 & Hp) | (s & cause & rest & line & Hp)];
      rewrite Hp in H; cbn [bind semver.pre semver.metadata] in H; [|discriminate].
    repeat (split; [assumption|]).
    destruct (validateSuffixes_returns
                (semver.mkVersion (decimal a) (decimal b) (decimal (patchOf c))
                   (preOf c) (metaOf c)) (foundLines a b (patchOf c)))
      as [Hv | (e & rest & line & Hv & _)]; rewrite Hv in H; [|discriminate].
    now injection H as <-.
Qed.

End Outcomes.

(** ** The suffixes of a version whose core converts *)

Section Suffixes.

Variable isPrintWide : Z -> bool.

Local Open Scope string_scope.

Lemma eqb_empty_false (s : string) : s <> "" -> (s =? "") = false.
Proof. intros H. now apply String.eqb_neq. Qed.

Lemma metaStage_ok (meta : string) (messages : list string) :
  Forall (fun p => metaOk p = true) (strings.Split meta ".") ->
  metaStage isPrintWide meta messages
  = Ret (None, (messages ++ (if meta =? "" then [] else metaLines isPrintWide meta))%list).
Proof.
  intros H. unfold metaStage. destruct (meta =? ""); cbn [negb].
  - now rewrite app_nil_r.
  - now rewrite checkMeta_ok.
Qed.

Lemma metaStage_fault (meta : string) (messages before after : list string) (id : string) :
  meta <> "" ->
  strings.Split meta "." = (before ++ id :: after)%list ->
  Forall (fun p => metaOk p = true) before -> metaOk id = false ->
  metaStage isPrintWide meta messages
  = Ret (Some ErrInvalidCharacters, (messages ++ [metaFaultLine isPrintWide id])%list).
Proof.
  intros Hne Hs Hb Hid. unfold metaStage. rewrite (eqb_empty_false meta Hne). cbn [negb].
  now rewrite Hs, checkMeta_skip, checkMeta_cons, Hid.
Qed.

(** Every identifier passes: the version is valid. *)
Lemma Validate_suffixes_ok (ver p0 p1 p2 : string) :
  ver <> "" -> strings.SplitN ver "." 3 = [p0; p1; p2] ->
  converts p0 -> converts p1 -> converts (patchOf p2) ->
  Forall (fun p => preOk p = true) (strings.Split (preOf p2) ".") ->
  Forall (fun p => metaOk p = true) (strings.Split (metaOf p2) ".") ->
  semver.Validate isPrintWide ver =
    Ret (None, (foundLines p0 p1 (patchOf p2)
                ++ suffixLines isPrintWide (preOf p2) (metaOf p2))%list).
Proof.
  intros Hne Hs C0 C1 C2 Hp Hm.
  rewrite (Validate_core_ok isPrintWide ver p0 p1 p2) by assumption.
  rewrite validateSuffixes_spec. cbn [semver.pre semver.metadata]. unfold suffixLines.
  destruct (preOf p2 =? ""); cbn [negb].
  - now rewrite metaStage_ok.
  - rewrite checkPre_ok by assumption. cbn [bind].
    rewrite metaStage_ok by assumption. now rewrite <- app_assoc.
Qed.

(** The first identifier of the pre-release that does not pass decides. *)
Lemma Validate_pre_fault (ver p0 p1 p2 : string) (before after : list string) (id : string) :
  ver <> "" -> strings.SplitN ver "." 3 = [p0; p1; p2] ->
  converts p0 -> converts p1 -> converts (patchOf p2) ->
  preOf p2 <> "" ->
  strings.Split (preOf p2) "." = (before ++ id :: after)%list ->
  Forall (fun p => preOk p = true) before -> preOk id = false ->
  semver.Validate isPrintWide ver =
    Ret (Some (preFault id),
         (foundLines p0 p1 (patchOf p2) ++ [preFaultLine isPrintWide id])%list).
Proof.
  intros Hne Hs C0 C1 C2 Hpre Hsp Hb Hid.
  rewrite (Validate_core_ok isPrintWide ver p0 p1 p2) by assumption.
  rewrite validateSuffixes_spec. cbn [semver.pre semver.metadata].
  rewrite (eqb_empty_false _ Hpre). cbn [negb].
  now rewrite Hsp, checkPre_skip, checkPre_cons, Hid.
Qed.

(** The pre-release passing, the first identifier of the metadata that does
    not pass decides. *)
Lemma Validate_meta_fault (ver p0 p1 p2 : string) (before after : list string) (id : string) :
  ver <> "" -> strings.SplitN ver "." 3 = [p0; p1; p2] ->
  converts p0 -> converts p1 -> converts (patchOf p2) ->
  Forall (fun p => preOk p = true) (strings.Split (preOf p2) ".") ->
  metaOf p2 <> "" ->
  strings.Split (metaOf p2) "." = (before ++ id :: after)%list ->
  Forall (fun p => metaOk p = true) before -> metaOk id = false ->
  semver.Validate isPrintWide ver =
    Ret (Some ErrInvalidCharacters,
         (foundLines p0 p1 (patchOf p2)
          ++ (if preOf p2 =? "" then [] else preLines isPrintWide (preOf p2))
          ++ [metaFaultLine isPrintWide id])%list).
Proof.
  intros Hne Hs C0 C1 C2 Hp Hmeta Hsp Hb Hid.
  rewrite (Validate_core_ok isPrintWide ver p0 p1 p2) by assumption.
  rewrite validateSuffixes_spec. cbn [semver.pre semver.metadata].
  destruct (preOf p2 =? ""); cbn [negb].
  - now rewrite (metaStage_fault _ _ before after id).
  - rewrite checkPre_ok by assumption. cbn [bind].
    rewrite (metaStage_fault _ _ before after id) by assumption.
    now rewrite <- app_assoc.
Qed.

(** ** The pieces of the input *)

Lemma allBytes_app (P : byte -> bool) (s t : string) :
  allBytes P (s ++ t) = allBytes P s && allBytes P t.
Proof.
  induction s as [|c s IH]; cbn; [reflexivity|]. now rewrite IH, andb_assoc.
Qed.

(** The three pieces, put back together with two dots, are the input, and
    the first two hold no dot. *)
Lemma SplitN3_inv (ver p0 p1 p2 : string) :
  ver <> "" -> strings.SplitN ver "." 3 = [p0; p1; p2] ->
  ver = p0 ++ "." ++ p1 ++ "." ++ p2
  /\ cut "."%char p0 = None /\ cut "."%char p1 = None.
Proof.
  intros Hne. change "." with (sep1 "."%char) at 1. rewrite SplitN3_cut by assumption.
  destruct (cut "."%char ver) as [[a r]|] eqn:E1; [|discriminate].
  destruct (cut "."%char r) as [[b r']|] eqn:E2; [|discriminate].
  intros [= <- <- <-].
  apply cut_app in E1 as [-> Ha]. apply cut_app in E2 as [-> Hb]. now repeat split.
Qed.

Lemma SplitN3_intro (p0 p1 p2 : string) :
  cut "."%char p0 = None -> cut "."%char p1 = None ->
  strings.SplitN (p0 ++ "." ++ p1 ++ "." ++ p2) "." 3 = [p0; p1; p2].
Proof.
  intros H0 H1. change "." with (sep1 "."%char) at 3.
  rewrite SplitN3_cut by (destruct p0; discriminate).
  change (p0 ++ "." ++ p1 ++ "." ++ p2) with (p0 ++ String "."%char (p1 ++ String "."%char p2)).
  rewrite (cut_intro _ _ _ H0), (cut_intro _ _ _ H1). reflexivity.
Qed.

(** A piece with neither [+] nor [-] has no suffix. *)
Lemma no_suffix (p2 : string) :
  cut "+"%char p2 = None -> cut "-"%char p2 = None ->
  patchOf p2 = p2 /\ preOf p2 = "" /\ metaOf p2 = "".
Proof.
  intros Hp Hm. unfold patchOf, preOf, metaOf, cutMeta, cutPre.
  rewrite Hp. cbn [fst snd]. rewrite Hm. now repeat split.
Qed.

Lemma digits_no_byte (c : byte) (s : string) :
  isDigit c = false -> allBytes isDigit s = true -> cut c s = None.
Proof.
  intros Hc Hs. apply cut_None_bytes. induction s as [|b t IH]; [reflexivity|].
  cbn in *. apply andb_prop in Hs as [Hb Ht]. rewrite (IH Ht), andb_true_r.
  destruct (Ascii.eqb_spec b c) as [->|]; [congruence | reflexivity].
Qed.

Lemma digits_countByte (c : byte) (s : string) :
  isDigit c = false -> allBytes isDigit s = true -> strings.countByte s c = 0%Z.
Proof.
  intros Hc Hs. rewrite countByte_cut. now rewrite (digits_no_byte c s Hc Hs).
Qed.

Lemma isDigit_isAllowed (c : byte) : isDigit c = true -> isAllowed c = true.
Proof. unfold isAllowed. now intros ->. Qed.

Lemma digits_allowed (s : string) : allBytes isDigit s = true -> allBytes isAllowed s = true.
Proof.
  induction s as [|c t IH]; [reflexivity|]. cbn. intros H.
  apply andb_prop in H as [Hc Ht]. now rewrite (isDigit_isAllowed c Hc), IH.
Qed.

(** The errors [Validate] returns: nil, the four of the package, or the
    [*NumError] of [ParseUint]. *)
Lemma Validate_errors (ver : string) (e : option error) (messages : list string) :
  semver.Validate isPrintWide ver = Ret (e, messages) ->
  e = None \/ e = Some ErrEmptyString \/ e = Some ErrInvalidNumberParts
  \/ e = Some ErrInvalidCharacters \/ e = Some ErrSegmentStartsZero
  \/ exists s cause, e = Some (NumError "ParseUint" s cause).
Proof.
  destruct ver as [|c0 t0] eqn:Ev; [intros [= <- _]; tauto|]. rewrite <- Ev.
  assert (Hne : ver <> "") by (rewrite Ev; discriminate).
  destruct (SplitN3_shape ver Hne) as [(a & Hs) | [(a & b & Hs) | (a & b & c & Hs)]].
  - rewrite Validate_count by (assumption || (rewrite Hs; discriminate)).
    intros [= <- _]; tauto.
  - rewrite Validate_count by (assumption || (rewrite Hs; discriminate)).
    intros [= <- _]; tauto.
  - rewrite (Validate_segments isPrintWide ver a b c Hne Hs).
    assert (Hseg : forall p e', segFault p = Some e' ->
                     e' = ErrInvalidCharacters \/ e' = ErrSegmentStartsZero).
    { intros p e'. unfold segFault.
      destruct (allBytes isDigit p); cbn; [destruct (startsZero p)|];
        intros [= <-]; tauto. }
    destruct (segFault a) as [e0|] eqn:Ea;
      [intros [= <- _]; destruct (Hseg _ _ Ea) as [-> | ->]; tauto|].
    destruct (segFault b) as [e0|] eqn:Eb;
      [intros [= <- _]; destruct (Hseg _ _ Eb) as [-> | ->]; tauto|].
    destruct (segFault (patchOf c)) as [e0|] eqn:Ec;
      [intros [= <- _]; destruct (Hseg _ _ Ec) as [-> | ->]; tauto|].
    apply segFault_None in Ea, Eb, Ec.
    destruct (parseSegments_clean (semver.mkVersion 0 0 0 (preOf c) (metaOf c)) a b (patchOf c)
                Ea Eb Ec) as [(_ & _ & _ & ->) | (s & cause & rest & line & ->)];
      cbn [bind semver.pre semver.metadata].
    + destruct (validateSuffixes_returns isPrintWide
                  (semver.mkVersion (decimal a) (decimal b) (decimal (patchOf c))
                     (preOf c) (metaOf c)) (foundLines a b (patchOf c)))
        as [-> | (e' & rest & line & -> & [-> | ->])]; intros [= <- _]; tauto.
    + intros [= <- _]. do 5 right. eauto.
Qed.

End Suffixes.

(** ** What [Validate] accepts, and its errors by the input *)

Section Accepts.

Variable isPrintWide : Z -> bool.

Local Open Scope string_scope.

Lemma checkPre_None_inv (ids messages : list string) :
  semver.checkPre isPrintWide ids messages = Ret None ->
  Forall (fun p => preOk p = true) ids.
Proof.
  induction ids as [|p rest IH]; [constructor|].
  rewrite checkPre_cons. destruct (preOk p) eqn:E; [|discriminate].
  intros H. constructor; [assumption | now apply IH].
Qed.

Lemma checkMeta_None_inv (ids messages : list string) :
  semver.checkMeta isPrintWide ids messages = Ret None ->
  Forall (fun p => metaOk p = true) ids.
Proof.
  induction ids as [|p rest IH]; [constructor|].
  rewrite checkMeta_cons. destruct (metaOk p) eqn:E; [|discriminate].
  intros H. constructor; [assumption | now apply IH].
Qed.

Lemma metaStage_valid_inv (meta : string) (messages out : list string) :
  metaStage isPrintWide meta messages = Ret (None, out) ->
  Forall (fun p => metaOk p = true) (strings.Split meta ".").
Proof.
  unfold metaStage. destruct (meta =? "") eqn:E; cbn [negb].
  - apply String.eqb_eq in E as ->. intros _. repeat constructor.
  - destruct (checkMeta_returns isPrintWide (strings.Split meta ".") messages)
      as [H | (line & H)]; rewrite H; cbn [bind]; [|discriminate].
    intros _. now apply checkMeta_None_inv in H.
Qed.

Lemma validateSuffixes_valid_inv (v : semver.version) (messages out : list string) :
  semver.validateSuffixes isPrintWide v messages = Ret (None, out) ->
  Forall (fun p => preOk p = true) (strings.Split (semver.pre v) ".")
  /\ Forall (fun p => metaOk p = true) (strings.Split (semver.metadata v) ".").
Proof.
  rewrite validateSuffixes_spec. destruct (semver.pre v =? "") eqn:E; cbn [negb].
  - apply String.eqb_eq in E as ->. intros H. split; [repeat constructor|].
    now apply metaStage_valid_inv in H.
  - destruct (checkPre_outcome isPrintWide (strings.Split (semver.pre v) ".") messages)
      as [H | (e & line & H & _)]; rewrite H; cbn [bind]; [|discriminate].
    intros Hm. split; [now apply checkPre_None_inv in H | now apply metaStage_valid_inv in Hm].
Qed.

(** What [Validate] accepts. *)
Lemma Validate_valid_iff (ver : string) :
  (exists messages, semver.Validate isPrintWide ver = Ret (None, messages))
  <-> exists p0 p1 p2,
        strings.SplitN ver "." 3 = [p0; p1; p2]
        /\ converts p0 /\ converts p1 /\ converts (patchOf p2)
        /\ Forall (fun p => preOk p = true) (strings.Split (preOf p2) ".")
        /\ Forall (fun p => metaOk p = true) (strings.Split (metaOf p2) ".").
Proof.
  split.
  - intros (messages & H). pose proof H as H'.
    apply Validate_valid_inv in H' as (p0 & p1 & p2 & Hs & C0 & C1 & C2 & _).
    exists p0, p1, p2. repeat (split; [assumption|]).
    assert (Hne : ver <> "") by (intros ->; discriminate).
    rewrite (Validate_core_ok isPrintWide ver p0 p1 p2) in H by assumption.
    now apply validateSuffixes_valid_inv in H.
  - intros (p0 & p1 & p2 & Hs & C0 & C1 & C2 & Hp & Hm).
    assert (Hne : ver <> "") by (intros ->; discriminate).
    eexists. now apply (Validate_suffixes_ok isPrintWide ver p0 p1 p2).
Qed.

(** The conversions fail on three clean segments exactly when one of them
    does not convert. *)
Lemma Validate_NumError_iff (ver : string) :
  (exists s cause messages,
     semver.Validate isPrintWide ver = Ret (Some (NumError "ParseUint" s cause), messages))
  <-> exists p0 p1 p2,
        strings.SplitN ver "." 3 = [p0; p1; p2]
        /\ clean p0 /\ clean p1 /\ clean (patchOf p2)
        /\ ~ (converts p0 /\ converts p1 /\ converts (patchOf p2)).
Proof.
  split.
  - intros (s & cause & messages & H).
    destruct ver as [|c0 t0] eqn:Ev; [discriminate|]. rewrite <- Ev in *.
    assert (Hne : ver <> "") by (rewrite Ev; discriminate).
    destruct (SplitN3_shape ver Hne) as [(a & Hs) | [(a & b & Hs) | (a & b & c & Hs)]].
    + rewrite Validate_count in H by (assumption || (rewrite Hs; discriminate)). discriminate.
    + rewrite Validate_count in H by (assumption || (rewrite Hs; discriminate)). discriminate.
    + exists a, b, c. split; [assumption|]. pose proof H as H0.
      rewrite (Validate_segments isPrintWide ver a b c Hne Hs) in H.
      assert (Hseg : forall p e', segFault p = Some e' ->
                       e' = ErrInvalidCharacters \/ e' = ErrSegmentStartsZero).
      { intros p e'. unfold segFault.
        destruct (allBytes isDigit p); cbn; [destruct (startsZero p)|];
          intros [= <-]; tauto. }
      destruct (segFault a) as [e0|] eqn:Ea;
        [injection H as -> _; destruct (Hseg _ _ Ea); discriminate|].
      destruct (segFault b) as [e0|] eqn:Eb;
        [injection H as -> _; destruct (Hseg _ _ Eb); discriminate|].
      destruct (segFault (patchOf c)) as [e0|] eqn:Ec;
        [injection H as -> _; destruct (Hseg _ _ Ec); discriminate|].
      apply segFault_None in Ea, Eb, Ec. repeat (split; [assumption|]).
      intros (C0 & C1 & C2).
      rewrite (Validate_core_ok isPrintWide ver a b c) in H0 by assumption.
      destruct (validateSuffixes_returns isPrintWide
                  (semver.mkVersion (decimal a) (decimal b) (decimal (patchOf c))
                     (preOf c) (metaOf c)) (foundLines a b (patchOf c)))
        as [Hv | (e' & rest & line & Hv & [-> | ->])]; rewrite Hv in H0; discriminate.
  - intros (p0 & p1 & p2 & Hs & K0 & K1 & K2 & Hn).
    assert (Hne : ver <> "") by (intros ->; discriminate).
    rewrite (Validate_segments isPrintWide ver p0 p1 p2 Hne Hs).
    rewrite (proj2 (segFault_None p0) K0), (proj2 (segFault_None p1) K1),
      (proj2 (segFault_None (patchOf p2)) K2).
    destruct (parseSegments_clean (semver.mkVersion 0 0 0 (preOf p2) (metaOf p2))
                p0 p1 (patchOf p2) K0 K1 K2)
      as [(C0 & C1 & C2 & _) | (s & cause & rest & line & ->)]; [tauto|].
    cbn [bind]. eauto.
Qed.

(** On three pieces the error is nil, one of the two of the loops, or the
    [*NumError] of a conversion. *)
Lemma Validate_three_errors (ver p0 p1 p2 : string) (e : option error) (messages : list string) :
  ver <> "" -> strings.SplitN ver "." 3 = [p0; p1; p2] ->
  semver.Validate isPrintWide ver = Ret (e, messages) ->
  e = None \/ e = Some ErrInvalidCharacters \/ e = Some ErrSegmentStartsZero
  \/ exists s cause, e = Some (NumError "ParseUint" s cause).
Proof.
  intros Hne Hs. rewrite (Validate_segments isPrintWide ver p0 p1 p2 Hne Hs).
  assert (Hseg : forall p e', segFault p = Some e' ->
                   e' = ErrInvalidCharacters \/ e' = ErrSegmentStartsZero).
  { intros p e'. unfold segFault.
    destruct (allBytes isDigit p); cbn; [destruct (startsZero p)|];
      intros [= <-]; tauto. }
  destruct (segFault p0) as [e0|] eqn:Ea;
    [intros [= <- _]; destruct (Hseg _ _ Ea) as [-> | ->]; tauto|].
  destruct (segFault p1) as [e0|] eqn:Eb;
    [intros [= <- _]; destruct (Hseg _ _ Eb) as [-> | ->]; tauto|].
  destruct (segFault (patchOf p2)) as [e0|] eqn:Ec;
    [intros [= <- _]; destruct (Hseg _ _ Ec) as [-> | ->]; tauto|].
  apply segFault_None in Ea, Eb, Ec.
  destruct (parseSegments_clean (semver.mkVersion 0 0 0 (preOf p2) (metaOf p2)) p0 p1 (patchOf p2)
              Ea Eb Ec) as [(_ & _ & _ & ->) | (s & cause & rest & line & ->)];
    cbn [bind semver.pre semver.metadata].
  - destruct (validateSuffixes_returns isPrintWide
                (semver.mkVersion (decimal p0) (decimal p1) (decimal (patchOf p2))
                   (preOf p2) (metaOf p2)) (foundLines p0 p1 (patchOf p2)))
      as [-> | (e' & rest & line & -> & [-> | ->])]; intros [= <- _]; tauto.
  - intros [= <- _]. do 3 right. eauto.
Qed.

(** The two early outcomes, by the input. *)
Lemma Validate_empty_iff (ver : string) :
  (exists messages, semver.Validate isPrintWide ver = Ret (Some ErrEmptyString, messages))
  <-> ver = "".
Proof.
  split; [|intros ->; eexists; reflexivity].
  intros (messages & H). destruct ver as [|c0 t0] eqn:Ev; [reflexivity|]. exfalso.
  rewrite <- Ev in *. assert (Hne : ver <> "") by (rewrite Ev; discriminate).
  destruct (SplitN3_shape ver Hne) as [(a & Hs) | [(a & b & Hs) | (a & b & c & Hs)]].
  - rewrite Validate_count in H by (assumption || (rewrite Hs; discriminate)). discriminate.
  - rewrite Validate_count in H by (assumption || (rewrite Hs; discriminate)). discriminate.
  - destruct (Validate_three_errors ver a b c _ _ Hne Hs H)
      as [E | [E | [E | (s & cause & E)]]]; discriminate.
Qed.

Lemma Validate_parts_iff (ver : string) :
  (exists messages, semver.Validate isPrintWide ver = Ret (Some ErrInvalidNumberParts, messages))
  <-> ver <> "" /\ lenS (strings.SplitN ver "." 3) <> 3%Z.
Proof.
  split.
  - intros (messages & H). destruct ver as [|c0 t0] eqn:Ev; [discriminate|].
    rewrite <- Ev in *. assert (Hne : ver <> "") by (rewrite Ev; discriminate).
    split; [assumption|].
    destruct (SplitN3_shape ver Hne) as [(a & Hs) | [(a & b & Hs) | (a & b & c & Hs)]];
      rewrite Hs; try discriminate.
    destruct (Validate_three_errors ver a b c _ _ Hne Hs H)
      as [E | [E | [E | (s & cause & E)]]]; discriminate.
  - intros [Hne Hn]. eexists. now apply Validate_count.
Qed.

End Accepts.

(** ** The command *)

Section CommandFacts.

Variable isPrintWide : Z -> bool.

Local Open Scope string_scope.

Lemma validate_unfold (withV : bool) (ver : string) (e : option error) (msgs : list string) :
  semver.Validate isPrintWide (handed withV ver) = Ret (e, msgs) ->
  exists verdict status,
    main.validate isPrintWide withV ver = Ret ((map main.Println msgs ++ [verdict])%list, status)
    /\ match e with
       | None => verdict = main.Println "Semantic Version is valid" /\ status = None
       | Some ErrEmptyString =>
           verdict = main.RedStderr (main.errmsg ErrEmptyString) /\ status = Some 3%Z
       | Some ErrInvalidNumberParts =>
           verdict = main.RedStderr (main.errmsg ErrInvalidNumberParts) /\ status = Some 4%Z
       | Some ErrInvalidCharacters =>
           verdict = main.RedStderr (main.errmsg ErrInvalidCharacters) /\ status = Some 5%Z
       | Some ErrSegmentStartsZero =>
           verdict = main.RedStderr (main.errmsg ErrSegmentStartsZero) /\ status = Some 6%Z
       | Some (NumError _ _ _) =>
           verdict = main.RedStderr
                       ("Invalid Semantic Version. For more information see https://semver.org"
                        ++ main.newline)
           /\ status = Some 2%Z
       end.
Proof.
  intros H. unfold main.validate. fold (handed withV ver). rewrite H. cbn [bind].
  unfold appendS. destruct e as [[| | | |fn n c]|]; eexists; eexists;
    (split; [reflexivity | split; reflexivity]).
Qed.

End CommandFacts.

(** ** [%d] of the value of a segment is the segment *)

Lemma digit_cases (c : byte) :
  isDigit c = true ->
  c = "0"%char \/ c = "1"%char \/ c = "2"%char \/ c = "3"%char \/ c = "4"%char
  \/ c = "5"%char \/ c = "6"%char \/ c = "7"%char \/ c = "8"%char \/ c = "9"%char.
Proof.
  destruct c as [[] [] [] [] [] [] [] []]; cbv; intros H; try discriminate; tauto.
Qed.

Ltac digit_step t :=
  first
    [ progress change (uintOf (String "0"%char t)) with (Decimal.D0 (uintOf t))
    | progress change (uintOf (String "1"%char t)) with (Decimal.D1 (uintOf t))
    | progress change (uintOf (String "2"%char t)) with (Decimal.D2 (uintOf t))
    | progress change (uintOf (String "3"%char t)) with (Decimal.D3 (uintOf t))
    | progress change (uintOf (String "4"%char t)) with (Decimal.D4 (uintOf t))
    | progress change (uintOf (String "5"%char t)) with (Decimal.D5 (uintOf t))
    | progress change (uintOf (String "6"%char t)) with (Decimal.D6 (uintOf t))
    | progress change (uintOf (String "7"%char t)) with (Decimal.D7 (uintOf t))
    | progress change (uintOf (String "8"%char t)) with (Decimal.D8 (uintOf t))
    | progress change (uintOf (String "9"%char t)) with (Decimal.D9 (uintOf t)) ].

Lemma string_of_uintOf (s : string) :
  allBytes isDigit s = true -> NilEmpty.string_of_uint (uintOf s) = s.
Proof.
  induction s as [|c t IH]; [reflexivity|]. cbn [allBytes]. intros H.
  apply andb_prop in H as [Hc Ht].
  destruct (digit_cases c Hc) as [-> | [-> | [-> | [-> | [-> | [-> | [-> | [-> | [-> | ->]]]]]]]]];
    digit_step t; cbn [NilEmpty.string_of_uint]; now rewrite (IH Ht).
Qed.

Lemma of_uint_acc_decimal (s : string) (acc : positive) :
  allBytes isDigit s = true ->
  Z.pos (Pos.of_uint_acc (uintOf s) acc) = decimalFrom (Z.pos acc) s.
Proof.
  revert acc. induction s as [|c t IH]; intros acc; [reflexivity|]. cbn [allBytes]. intros H.
  apply andb_prop in H as [Hc Ht].
  destruct (digit_cases c Hc) as [-> | [-> | [-> | [-> | [-> | [-> | [-> | [-> | [-> | ->]]]]]]]]];
    digit_step t; cbn [decimalFrom Pos.of_uint_acc]; rewrite (IH _ Ht); f_equal;
    match goal with |- _ = 10 * _ + (b2z ?c - 48) =>
      let v := eval vm_compute in (b2z c - 48) in change (b2z c - 48) with v end; lia.
Qed.

Lemma of_uint_decimal (s : string) :
  allBytes isDigit s = true -> Z.of_uint (uintOf s) = decimal s.
Proof.
  unfold Z.of_uint, decimal. induction s as [|c t IH]; [reflexivity|]. cbn [allBytes]. intros H.
  apply andb_prop in H as [Hc Ht].
  destruct (digit_cases c Hc) as [-> | [-> | [-> | [-> | [-> | [-> | [-> | [-> | [-> | ->]]]]]]]]];
    digit_step t; cbn [decimalFrom Pos.of_uint];
    match goal with |- context [10 * 0 + (b2z ?c - 48)] =>
      let v := eval vm_compute in (10 * 0 + (b2z c - 48)) in
      change (10 * 0 + (b2z c - 48)) with v end;
    try (exact (IH Ht));
    cbn [Z.of_N]; now rewrite (of_uint_acc_decimal _ _ Ht).
Qed.

Lemma unorm_uintOf (s : string) :
  s <> EmptyString -> allBytes isDigit s = true -> startsZero s = false ->
  Decimal.unorm (uintOf s) = uintOf s /\ uintOf s <> Decimal.Nil.
Proof.
  destruct s as [|c t]; [congruence|]. intros _. cbn [allBytes]. intros H Hz.
  apply andb_prop in H as [Hc Ht].
  destruct (digit_cases c Hc) as [-> | [-> | [-> | [-> | [-> | [-> | [-> | [-> | [-> | ->]]]]]]]]];
    try (split; [reflexivity | discriminate]).
  destruct t; [split; [reflexivity | discriminate] | discriminate].
Qed.

(** A segment that passes the first loop is the decimal writing of its
    value. *)
Lemma FormatInt_decimal (s : string) :
  s <> EmptyString -> allBytes isDigit s = true -> startsZero s = false ->
  strconv.FormatInt (decimal s) = s.
Proof.
  intros Hne Hd Hz. unfold strconv.FormatInt.
  rewrite <- (of_uint_decimal s Hd).
  change (Z.of_uint (uintOf s)) with (Z.of_int (Decimal.Pos (uintOf s))).
  rewrite DecimalZ.to_of. cbn [Decimal.norm].
  destruct (unorm_uintOf s Hne Hd Hz) as [-> Hn]. cbn [NilZero.string_of_int].
  unfold NilZero.string_of_uint. rewrite <- (string_of_uintOf s Hd) at 2.
  now destruct (uintOf s).
Qed.

(** ** The accepted inputs, as written *)

Section Grammar.

Variable isPrintWide : Z -> bool.

Local Open Scope string_scope.

Lemma allBytes_impl (P Q : byte -> bool) (s : string) :
  (forall c, P c = true -> Q c = true) -> allBytes P s = true -> allBytes Q s = true.
Proof.
  intros H. induction s as [|c t IH]; [reflexivity|]. cbn. intros Hs.
  apply andb_prop in Hs as [Hc Ht]. now rewrite (H c Hc), IH.
Qed.

Lemma app_assoc_s (a b c : string) : (a ++ b) ++ c = a ++ (b ++ c).
Proof. induction a as [|x a IH]; cbn; [reflexivity|]. now rewrite IH. Qed.

Lemma app_empty_r (a : string) : a ++ "" = a.
Proof. induction a as [|x a IH]; cbn; [reflexivity|]. now rewrite IH. Qed.

(** The bytes of a string whose pieces satisfy [Q] satisfy [Q] or are the
    separator. *)
Lemma splitLoop_bytes (Q : byte -> bool) (c : byte) (k : nat) (s : string) :
  Forall (fun id => allBytes Q id = true) (strings.splitLoop k s (sep1 c)) ->
  allBytes (fun b => Q b || Ascii.eqb b c) s = true.
Proof.
  revert s. induction k as [|k IH]; intros s.
  - cbn. intros H. apply Forall_cons_1 in H as [H _].
    revert H. apply allBytes_impl. intros b ->. reflexivity.
  - rewrite splitLoop_cut. destruct (cut c s) as [[l r]|] eqn:E.
    + intros H. apply Forall_cons_1 in H as [Hl Hr].
      apply cut_app in E as [-> _]. rewrite allBytes_app. cbn [allBytes].
      rewrite (IH r Hr), Ascii.eqb_refl, orb_true_r, !andb_true_r.
      revert Hl. apply allBytes_impl. intros b ->. reflexivity.
    + intros H. apply Forall_cons_1 in H as [H _].
      revert H. apply allBytes_impl. intros b ->. reflexivity.
Qed.

Lemma Split_bytes (Q : byte -> bool) (s : string) :
  Forall (fun id => allBytes Q id = true) (strings.Split s ".") ->
  allBytes (fun b => Q b || Ascii.eqb b ".") s = true.
Proof.
  unfold strings.Split, strings.genSplit. cbn [Z.eqb Z.ltb Z.compare].
  destruct (_ >? _); apply (splitLoop_bytes Q "."%char).
Qed.

Lemma preOk_allowed (id : string) : preOk id = true -> allBytes isAllowed id = true.
Proof.
  unfold preOk. destruct (allBytes isDigit id) eqn:E; [|tauto].
  intros _. now apply digits_allowed.
Qed.

(** A suffix whose identifiers are made of the allowed bytes holds no plus
    sign. *)
Lemma allowed_no_plus (s : string) :
  Forall (fun id => allBytes isAllowed id = true) (strings.Split s ".") ->
  cut "+"%char s = None.
Proof.
  intros H. apply Split_bytes in H. apply cut_None_bytes. revert H.
  apply allBytes_impl. intros c Hc.
  destruct (Ascii.eqb_spec c "+"%char) as [->|]; [discriminate | reflexivity].
Qed.

Lemma converts_no_byte (c : byte) (p : string) :
  isDigit c = false -> converts p -> cut c p = None.
Proof. intros Hc ((Hd & _) & _). now apply digits_no_byte. Qed.

(** The pieces of a version as it is written. *)
Lemma render_pieces (maj min pat : string) (pre meta : option string) :
  converts maj -> converts min -> converts pat ->
  suffixOk preOk pre ->
  strings.SplitN (render maj min pat pre meta) "." 3
    = [maj; min;
       pat ++ match pre with Some p => "-" ++ p | None => "" end
           ++ match meta with Some m => "+" ++ m | None => "" end]
  /\ patchOf (pat ++ match pre with Some p => "-" ++ p | None => "" end
                  ++ match meta with Some m => "+" ++ m | None => "" end) = pat
  /\ preOf (pat ++ match pre with Some p => "-" ++ p | None => "" end
                ++ match meta with Some m => "+" ++ m | None => "" end)
     = match pre with Some p => p | None => "" end
  /\ metaOf (pat ++ match pre with Some p => "-" ++ p | None => "" end
                 ++ match meta with Some m => "+" ++ m | None => "" end)
     = match meta with Some m => m | None => "" end.
Proof.
  intros C0 C1 C2 Hpre. split.
  - unfold render. apply SplitN3_intro; now apply converts_no_byte.
  - pose proof (converts_no_byte "+"%char pat eq_refl C2) as Hplus.
    pose proof (converts_no_byte "-"%char pat eq_refl C2) as Hdash.
    assert (Hleft : cut "+"%char (pat ++ match pre with Some p => "-" ++ p | None => "" end)
                    = None).
    { apply cut_None_bytes. rewrite allBytes_app.
      apply cut_None_bytes in Hplus. rewrite Hplus. cbn [andb].
      destruct pre as [p|]; [|reflexivity]. cbn [allBytes append]. cbn [Ascii.eqb Bool.eqb negb andb].
      apply cut_None_bytes, allowed_no_plus.
      eapply Forall_impl; [exact Hpre|]. intros id. apply preOk_allowed. }
    assert (Hcutpre : cutPre (pat ++ match pre with Some p => "-" ++ p | None => "" end)
                      = (pat, match pre with Some p => p | None => "" end)).
    { unfold cutPre. destruct pre as [p|].
      - change (pat ++ "-" ++ p) with (pat ++ String "-"%char p).
        now rewrite (cut_intro _ _ _ Hdash).
      - rewrite app_empty_r, Hdash. reflexivity. }
    unfold patchOf, preOf, metaOf, cutMeta.
    destruct meta as [m|].
    + rewrite <- app_assoc_s.
      change ((pat ++ match pre with Some p => "-" ++ p | None => "" end) ++ "+" ++ m)
        with ((pat ++ match pre with Some p => "-" ++ p | None => "" end) ++ String "+"%char m).
      rewrite (cut_intro _ _ _ Hleft). cbn [fst snd]. now rewrite Hcutpre.
    + rewrite <- app_assoc_s, app_empty_r, Hleft. cbn [fst snd]. now rewrite Hcutpre.
Qed.


(** The pieces of an input, written back. *)
Lemma pieces_render (ver p0 p1 p2 : string) :
  ver <> "" -> strings.SplitN ver "." 3 = [p0; p1; p2] ->
  exists pre meta,
    ver = render p0 p1 (patchOf p2) pre meta
    /\ preOf p2 = match pre with Some p => p | None => "" end
    /\ metaOf p2 = match meta with Some m => m | None => "" end.
Proof.
  intros Hne Hs. apply SplitN3_inv in Hs as (-> & _ & _); [|assumption].
  unfold render, patchOf, preOf, metaOf, cutMeta, cutPre.
  destruct (cut "+"%char p2) as [[l m]|] eqn:Em; cbn [fst snd].
  - apply cut_app in Em as [-> _].
    destruct (cut "-"%char l) as [[pt pr]|] eqn:Ep; cbn [fst snd].
    + apply cut_app in Ep as [-> _]. exists (Some pr), (Some m).
      split; [|split; reflexivity]. do 2 f_equal. f_equal. f_equal.
      change (String "-"%char pr) with ("-" ++ pr).
      change (String "+"%char m) with ("+" ++ m). now rewrite !app_assoc_s.
    + exists None, (Some m). split; [|split; reflexivity]. reflexivity.
  - destruct (cut "-"%char p2) as [[pt pr]|] eqn:Ep; cbn [fst snd].
    + apply cut_app in Ep as [-> _]. exists (Some pr), None.
      split; [|split; reflexivity]. do 2 f_equal. f_equal. f_equal.
      change (String "-"%char pr) with ("-" ++ pr). now rewrite app_empty_r.
    + exists None, None. split; [|split; reflexivity]. cbn. now rewrite app_empty_r.
Qed.

End Grammar.

(** * The claims of the specification *)

Section Claims.

Variable isPrintWide : Z -> bool.

Local Open Scope string_scope.

Local Abbreviation Validate := (semver.Validate isPrintWide).

(** C6.  On the empty string [Validate] returns [ErrEmptyString] and no
    message, and that is the only case with no message: whatever else it
    returns, valid or not, comes with at least one message. *)
Theorem C6_empty_only_silent (ver : string) :
  exists e messages,
    Validate ver = Ret (e, messages)
    /\ (len ver = 0%Z -> e = Some ErrEmptyString /\ messages = [])
    /\ (messages = [] -> ver = "").
Proof.
  destruct ver as [|c t] eqn:E.
  - exists (Some ErrEmptyString), []. repeat split; reflexivity.
  - destruct (Validate_messages isPrintWide (String c t)) as (e & rest & line & H);
      [discriminate|].
    exists e, (rest ++ [line])%list. split; [assumption|]. split.
    + unfold len. cbn. lia.
    + intros Hn. now destruct rest.
Qed.

(** C7.  On a non-empty input that [SplitN(ver, ".", 3)] cuts in a number
    of pieces other than three, [Validate] returns [ErrInvalidNumberParts]
    and the one message that reports the number found, which is 1 or 2. *)
Theorem C7_wrong_segment_count (ver : string) :
  ver <> "" ->
  lenS (strings.SplitN ver "." 3) <> 3%Z ->
  Validate ver =
    Ret (Some ErrInvalidNumberParts,
         ["Found " ++ strconv.FormatInt (lenS (strings.SplitN ver "." 3))
          ++ " number of parts"])
  /\ (lenS (strings.SplitN ver "." 3) = 1%Z \/ lenS (strings.SplitN ver "." 3) = 2%Z).
Proof.
  intros Hne Hn. split; [now apply Validate_count|].
  destruct (SplitN3_shape ver Hne) as [(a & Hs) | [(a & b & Hs) | (a & b & c & Hs)]];
    rewrite Hs in *; [now left | now right | now contradict Hn].
Qed.

(** C8.  [Validate] returns on every input: neither the panic of
    [numToName] nor an index out of range is reached.  [numToName] panics
    exactly outside of 0, 1 and 2, and the loop that calls it, started at
    index 0, stays within them on up to three parts. *)
Theorem C8_never_panics (ver : string) :
  (exists e messages, Validate ver = Ret (e, messages))
  /\ (forall i, (0 <= i <= 2)%Z -> exists name, semver.numToName i = Ret name)
  /\ (forall i, ~ (0 <= i <= 2)%Z -> semver.numToName i = Panic "Invalid part number")
  /\ (forall parts messages, (length parts <= 3)%nat ->
        exists r, semver.checkSegments isPrintWide 0 parts messages = Ret r).
Proof.
  split; [apply Validate_returns|]. split; [|split].
  - intros i Hi. assert (i = 0 \/ i = 1 \/ i = 2)%Z as [-> | [-> | ->]] by lia; eauto.
  - intros i Hi. unfold semver.numToName.
    destruct (Z.eqb_spec i 0); [lia|]. destruct (Z.eqb_spec i 1); [lia|].
    destruct (Z.eqb_spec i 2); [lia|]. reflexivity.
  - intros parts messages Hl.
    destruct parts as [|a parts]; [eauto|].
    rewrite (checkSegments_cons isPrintWide 0 a _ _ "major") by reflexivity.
    destruct (segFault a); [eauto|].
    destruct parts as [|b parts]; [eauto|].
    rewrite (checkSegments_cons isPrintWide (0 + 1) b _ _ "minor") by reflexivity.
    destruct (segFault b); [eauto|].
    destruct parts as [|c parts]; [eauto|].
    rewrite (checkSegments_cons isPrintWide (0 + 1 + 1) c _ _ "patch") by reflexivity.
    destruct (segFault c); [eauto|].
    destruct parts; [eauto | cbn in Hl; lia].
Qed.

(** C1.  The messages of a valid version start with the lines of major,
    minor and patch, in that order, each with the number its segment
    converts to, which is the decimal value of the segment; the lines of the
    pre-release and of the metadata, if any, come after them. *)
Theorem C1_valid_reports_core (ver : string) (messages : list string) :
  Validate ver = Ret (None, messages) ->
  exists p0 p1 p2 a b c,
    strings.SplitN ver "." 3 = [p0; p1; p2]
    /\ strconv.ParseUint p0 = (a, None) /\ a = decimal p0
    /\ strconv.ParseUint p1 = (b, None) /\ b = decimal p1
    /\ strconv.ParseUint (patchOf p2) = (c, None) /\ c = decimal (patchOf p2)
    /\ messages =
         ([("Found major version of " ++ strconv.FormatInt a)%string;
           ("Found minor version of " ++ strconv.FormatInt b)%string;
           ("Found patch version of " ++ strconv.FormatInt c)%string]
          ++ (if preOf p2 =? "" then [] else preLines isPrintWide (preOf p2))
          ++ (if metaOf p2 =? "" then [] else metaLines isPrintWide (metaOf p2)))%list.
Proof.
  intros H. apply Validate_valid_inv in H as (p0 & p1 & p2 & Hs & C0 & C1 & C2 & ->).
  exists p0, p1, p2, (decimal p0), (decimal p1), (decimal (patchOf p2)).
  repeat split; try assumption; now apply ParseUint_converts.
Qed.

(** C3.  The first loop examines major, minor and the cleaned patch in that
    order and stops at the first segment at fault: whatever the later
    segments are, a byte that is not a digit gives [ErrInvalidCharacters],
    and, the segment being all digits, a leading zero on more than one byte
    gives [ErrSegmentStartsZero]; the one message names the segment. *)
Theorem C3_first_core_violation (ver p0 p1 p2 : string) (i : nat) (seg name : string) :
  ver <> "" ->
  strings.SplitN ver "." 3 = [p0; p1; p2] ->
  [p0; p1; patchOf p2] !! i = Some seg ->
  ["major"; "minor"; "patch"] !! i = Some name ->
  Forall clean (take i [p0; p1; patchOf p2]) ->
  (allBytes isDigit seg = false ->
     Validate ver =
       Ret (Some ErrInvalidCharacters,
            ["Illegal non-numeric characters found in " ++ quoted name ++ " part"]))
  /\ (allBytes isDigit seg = true -> startsZero seg = true ->
        Validate ver =
          Ret (Some ErrSegmentStartsZero,
               ["Illegal leading 0 found in " ++ quoted name ++ " part"])).
Proof.
  intros Hne Hs Hseg Hname Hclean.
  assert (Hf : forall e, segFault seg = Some e ->
                         Validate ver = Ret (Some e, [segMessage e name])).
  { intros e He. rewrite (Validate_segments isPrintWide ver p0 p1 p2 Hne Hs).
    destruct i as [|[|[|i]]]; cbn in Hseg, Hname, Hclean; try discriminate;
      injection Hseg as <-; injection Hname as <-.
    - now rewrite He.
    - apply Forall_cons_1 in Hclean as [H0 _]. apply segFault_None in H0.
      now rewrite H0, He.
    - apply Forall_cons_1 in Hclean as [H0 Hclean].
      apply Forall_cons_1 in Hclean as [H1 _]. apply segFault_None in H0, H1.
      now rewrite H0, H1, He. }
  split.
  - intros Hd. now rewrite (Hf _ (segFault_chars seg Hd)).
  - intros Hd Hz. now rewrite (Hf _ (segFault_zero seg Hd Hz)).
Qed.


(** C2, as amended.  A core segment that is all digits and whose value is
    above [maxUint64] never belongs to a valid version.  When the three core
    segments pass the first loop and every segment before that one converts,
    [Validate] returns the range error of [ParseUint] on that segment, after
    the lines of the segments before it and the line that names the segment
    it could not convert. *)
Theorem C2_overflow_reported (ver p0 p1 p2 : string) (i : nat) (seg name : string) :
  ver <> "" ->
  strings.SplitN ver "." 3 = [p0; p1; p2] ->
  [p0; p1; patchOf p2] !! i = Some seg ->
  ["major"; "minor"; "patch"] !! i = Some name ->
  allBytes isDigit seg = true ->
  (decimal seg > strconv.maxUint64)%Z ->
  (forall messages, Validate ver <> Ret (None, messages))
  /\ (Forall clean [p0; p1; patchOf p2] ->
      Forall converts (take i [p0; p1; patchOf p2]) ->
      Validate ver =
        Ret (Some (NumError "ParseUint" seg ErrRange),
             (take i (foundLines p0 p1 (patchOf p2))
              ++ [("Unable to parse " ++ name
                   ++ " part. Must be valid numeric characters [0-9]")%string])%list)).
Proof.
  intros Hne Hs Hseg Hname Hd Hgt. split.
  - intros messages H.
    apply Validate_valid_inv in H as (q0 & q1 & q2 & Hs' & C0 & C1 & C2 & _).
    rewrite Hs in Hs'. injection Hs' as <- <- <-.
    destruct i as [|[|[|i]]]; cbn in Hseg; try discriminate; injection Hseg as <-;
      [destruct C0 as (_ & _ & Hle) | destruct C1 as (_ & _ & Hle)
       | destruct C2 as (_ & _ & Hle)]; lia.
  - intros Hclean Hconv.
    rewrite (Validate_segments isPrintWide ver p0 p1 p2 Hne Hs).
    apply Forall_cons_1 in Hclean as [K0 Hclean].
    apply Forall_cons_1 in Hclean as [K1 Hclean].
    apply Forall_cons_1 in Hclean as [K2 _].
    rewrite (proj2 (segFault_None p0) K0), (proj2 (segFault_None p1) K1),
      (proj2 (segFault_None (patchOf p2)) K2), parseSegments_spec.
    destruct i as [|[|[|i]]]; cbn in Hseg, Hname, Hconv; try discriminate;
      injection Hseg as <-; injection Hname as <-.
    + now rewrite (ParseUint_overflow _ Hd Hgt).
    + apply Forall_cons_1 in Hconv as [C0 _].
      now rewrite (ParseUint_converts _ C0), (ParseUint_overflow _ Hd Hgt).
    + apply Forall_cons_1 in Hconv as [C0 Hconv]. apply Forall_cons_1 in Hconv as [C1 _].
      now rewrite (ParseUint_converts _ C0), (ParseUint_converts _ C1),
        (ParseUint_overflow _ Hd Hgt).
Qed.

(** C4.  The identifiers of a pre-release are examined in order, and the
    first that does not pass decides: all digits with a leading zero on more
    than one byte, it gives [ErrSegmentStartsZero]; holding a byte outside
    of [0-9A-Za-z-], it gives [ErrInvalidCharacters]; not all digits and
    made of those bytes, it passes, leading zero or not.  So it is for the
    loop on whatever messages, and for [Validate] on a version whose core
    converts. *)
Theorem C4_prerelease_identifiers (pre : string) (before after : list string) (id : string) :
  strings.Split pre "." = (before ++ id :: after)%list ->
  Forall (fun p => preOk p = true) before ->
  (allBytes isDigit id = true -> startsZero id = true ->
     forall messages,
       semver.checkPre isPrintWide (strings.Split pre ".") messages =
         Ret (Some (Some ErrSegmentStartsZero,
                    (messages ++ [("Illegal leading 0 found in pre-release numeric part "
                                   ++ fmt.q isPrintWide id)%string])%list)))
  /\ (allBytes isAllowed id = false ->
        forall messages,
          semver.checkPre isPrintWide (strings.Split pre ".") messages =
            Ret (Some (Some ErrInvalidCharacters,
                       (messages ++ [("Illegal characters found in pre-release non-numeric part "
                                      ++ fmt.q isPrintWide id
                                      ++ ". Must be [0-9A-Za-z-]")%string])%list)))
  /\ (allBytes isDigit id = false -> allBytes isAllowed id = true ->
        forall messages,
          semver.checkPre isPrintWide (strings.Split pre ".") messages =
            semver.checkPre isPrintWide after messages)
  /\ (forall ver p0 p1 p2,
        ver <> "" -> strings.SplitN ver "." 3 = [p0; p1; p2] ->
        converts p0 -> converts p1 -> converts (patchOf p2) ->
        preOf p2 = pre -> pre <> "" ->
        (allBytes isDigit id = true -> startsZero id = true ->
           Validate ver =
             Ret (Some ErrSegmentStartsZero,
                  (foundLines p0 p1 (patchOf p2)
                   ++ [("Illegal leading 0 found in pre-release numeric part "
                        ++ fmt.q isPrintWide id)%string])%list))
        /\ (allBytes isAllowed id = false ->
              Validate ver =
                Ret (Some ErrInvalidCharacters,
                     (foundLines p0 p1 (patchOf p2)
                      ++ [("Illegal characters found in pre-release non-numeric part "
                           ++ fmt.q isPrintWide id
                           ++ ". Must be [0-9A-Za-z-]")%string])%list))).
Proof.
  intros Hsp Hb.
  assert (Hz : allBytes isDigit id = true -> startsZero id = true ->
               preOk id = false /\ preFault id = ErrSegmentStartsZero
               /\ preFaultLine isPrintWide id
                  = ("Illegal leading 0 found in pre-release numeric part "
                     ++ fmt.q isPrintWide id)%string).
  { intros Hd Hz. unfold preOk, preFault, preFaultLine. now rewrite Hd, Hz. }
  assert (Hc : allBytes isAllowed id = false ->
               preOk id = false /\ preFault id = ErrInvalidCharacters
               /\ preFaultLine isPrintWide id
                  = ("Illegal characters found in pre-release non-numeric part "
                     ++ fmt.q isPrintWide id ++ ". Must be [0-9A-Za-z-]")%string).
  { intros Ha. unfold preOk, preFault, preFaultLine.
    destruct (allBytes isDigit id) eqn:Hd; [|now rewrite Ha].
    apply digits_allowed in Hd. congruence. }
  repeat split.
  - intros Hd Hzero messages. destruct (Hz Hd Hzero) as (Ho & Hf & Hl).
    now rewrite Hsp, checkPre_skip, checkPre_cons, Ho, Hf, Hl.
  - intros Ha messages. destruct (Hc Ha) as (Ho & Hf & Hl).
    now rewrite Hsp, checkPre_skip, checkPre_cons, Ho, Hf, Hl.
  - intros Hd Ha messages. rewrite Hsp, checkPre_skip, checkPre_cons by assumption.
    unfold preOk. now rewrite Hd, Ha.
  - intros Hd Hzero. destruct (Hz Hd Hzero) as (Ho & Hf & Hl). subst pre.
    rewrite (Validate_pre_fault isPrintWide ver p0 p1 p2 before after id) by assumption.
    now rewrite Hf, Hl.
  - intros Ha. destruct (Hc Ha) as (Ho & Hf & Hl). subst pre.
    rewrite (Validate_pre_fault isPrintWide ver p0 p1 p2 before after id) by assumption.
    now rewrite Hf, Hl.
Qed.


(** C9.  An empty suffix is an absent one: a third piece that ends with its
    only [-] or [+] has the pre-release and the metadata empty, and a
    version whose core converts and whose suffixes are empty is valid, with
    the three lines of its core and no other.  The empty identifier passes
    both loops, so it does not make a version invalid. *)
Theorem C9_empty_suffixes :
  (forall patch,
     cut "+"%char patch = None -> cut "-"%char patch = None ->
     (patchOf (patch ++ "-") = patch /\ preOf (patch ++ "-") = ""
      /\ metaOf (patch ++ "-") = "")
     /\ (patchOf (patch ++ "+") = patch /\ preOf (patch ++ "+") = ""
         /\ metaOf (patch ++ "+") = ""))
  /\ (forall ver p0 p1 p2,
        ver <> "" -> strings.SplitN ver "." 3 = [p0; p1; p2] ->
        converts p0 -> converts p1 -> converts (patchOf p2) ->
        preOf p2 = "" -> metaOf p2 = "" ->
        Validate ver = Ret (None, foundLines p0 p1 (patchOf p2)))
  /\ (preOk "" = true /\ metaOk "" = true)
  /\ (forall ver p0 p1 p2,
        ver <> "" -> strings.SplitN ver "." 3 = [p0; p1; p2] ->
        converts p0 -> converts p1 -> converts (patchOf p2) ->
        Forall (fun id => id = "" \/ preOk id = true) (strings.Split (preOf p2) ".") ->
        Forall (fun id => id = "" \/ metaOk id = true) (strings.Split (metaOf p2) ".") ->
        Validate ver =
          Ret (None, (foundLines p0 p1 (patchOf p2)
                      ++ suffixLines isPrintWide (preOf p2) (metaOf p2))%list))
  /\ Validate "1.2.3-" =
       Ret (None, ["Found major version of 1"; "Found minor version of 2";
                   "Found patch version of 3"])
  /\ Validate "1.2.3+" =
       Ret (None, ["Found major version of 1"; "Found minor version of 2";
                   "Found patch version of 3"])
  /\ Validate "1.2.3-a..b" =
       Ret (None, ["Found major version of 1"; "Found minor version of 2";
                   "Found patch version of 3";
                   "Version is a pre-release version rather than a stable release version with a pre-release identifier of "
                     ++ quoted "a..b";
                   semver.preNotice]).
Proof.
  split; [|split; [|split; [|split; [|split; [|split]]]]].
  - intros patch Hp Hm. unfold patchOf, preOf, metaOf, cutMeta, cutPre. split.
    + assert (H1 : cut "+"%char (patch ++ "-") = None).
      { apply cut_None_bytes. rewrite allBytes_app. apply cut_None_bytes in Hp.
        now rewrite Hp. }
      rewrite H1. cbn [fst snd].
      change (patch ++ "-") with (patch ++ String "-"%char "").
      now rewrite (cut_intro _ _ _ Hm).
    + change (patch ++ "+") with (patch ++ String "+"%char "").
      rewrite (cut_intro _ _ _ Hp). cbn [fst snd]. now rewrite Hm.
  - intros ver p0 p1 p2 Hne Hs C0 C1 C2 Hpre Hmeta.
    rewrite (Validate_suffixes_ok isPrintWide ver p0 p1 p2) by
      (try assumption; rewrite ?Hpre, ?Hmeta; repeat constructor).
    unfold suffixLines. rewrite Hpre, Hmeta. reflexivity.
  - split; reflexivity.
  - intros ver p0 p1 p2 Hne Hs C0 C1 C2 Hp Hm.
    apply (Validate_suffixes_ok isPrintWide ver p0 p1 p2); try assumption.
    + eapply Forall_impl; [exact Hp|]. intros id [-> | H]; [reflexivity | assumption].
    + eapply Forall_impl; [exact Hm|]. intros id [-> | H]; [reflexivity | assumption].
  - vm_compute. reflexivity.
  - vm_compute. reflexivity.
  - vm_compute. reflexivity.
Qed.

(** C10, as amended.  An input of four dot-separated pieces or more, with
    neither [+] nor [-], is cut in three pieces, the third of which holds a
    dot and so is not all digits.  [Validate] returns
    [ErrInvalidCharacters] or [ErrSegmentStartsZero] with one message, never
    [ErrInvalidNumberParts] and never nil: [ErrInvalidCharacters] unless the
    major segment, or the minor one after a clean major, is all digits with
    a leading zero.  [ErrInvalidNumberParts] is returned on one or two
    pieces only. *)
Theorem C10_four_pieces (ver : string) :
  ((lenS (strings.Split ver ".") >= 4)%Z ->
   strings.ContainsAny ver "-+" = false ->
   exists p0 p1 p2 e line,
     strings.SplitN ver "." 3 = [p0; p1; p2]
     /\ allBytes isDigit (patchOf p2) = false
     /\ Validate ver = Ret (Some e, [line])
     /\ (e = ErrInvalidCharacters \/ e = ErrSegmentStartsZero)
     /\ (e = ErrSegmentStartsZero <->
         (allBytes isDigit p0 = true /\ startsZero p0 = true)
         \/ (clean p0 /\ allBytes isDigit p1 = true /\ startsZero p1 = true)))
  /\ (forall messages,
        Validate ver = Ret (Some ErrInvalidNumberParts, messages) ->
        lenS (strings.SplitN ver "." 3) = 1%Z \/ lenS (strings.SplitN ver "." 3) = 2%Z).
Proof.
  split.
  - intros Hn Hc.
    change "." with (sep1 "."%char) in Hn. rewrite Split_length in Hn.
    assert (Hne : ver <> "") by (intros ->; cbn in Hn; lia).
    destruct (SplitN3_shape ver Hne) as [(a & Hs) | [(a & b & Hs) | (a & b & c & Hs)]].
    + pose proof (SplitN3_length ver "."%char Hne) as Hl.
      change (sep1 "."%char) with "." in Hl. rewrite Hs in Hl.
      unfold lenS in Hl. cbn [length] in Hl. lia.
    + pose proof (SplitN3_length ver "."%char Hne) as Hl.
      change (sep1 "."%char) with "." in Hl. rewrite Hs in Hl.
      unfold lenS in Hl. cbn [length] in Hl. lia.
    + destruct (SplitN3_inv ver a b c Hne Hs) as (Hv & Ha & Hb).
      apply ContainsAny_false_cut in Hc as [Hp Hm].
      apply cut_None_bytes in Hp, Hm. rewrite Hv, !allBytes_app in Hp, Hm.
      repeat (apply andb_prop in Hp as [? Hp]). repeat (apply andb_prop in Hm as [? Hm]).
      apply cut_None_bytes in Hp, Hm.
      destruct (no_suffix c Hp Hm) as (Hpatch & _ & _).
      assert (Hdot : allBytes isDigit c = false).
      { destruct (allBytes isDigit c) eqn:Hd; [|reflexivity].
        pose proof (digits_countByte "."%char c eq_refl Hd) as Hz.
        rewrite (countByte_cut "."%char ver) in Hn.
        rewrite Hv in Hn.
        change (a ++ "." ++ b ++ "." ++ c) with (a ++ String "."%char (b ++ String "."%char c)) in Hn.
        rewrite (cut_intro _ _ _ Ha) in Hn.
        rewrite (countByte_cut "."%char (b ++ String "."%char c)), (cut_intro _ _ _ Hb) in Hn.
        lia. }
      exists a, b, c. rewrite (Validate_segments isPrintWide ver a b c Hne Hs), Hpatch.
      rewrite (segFault_chars c Hdot).
      unfold clean, segFault.
      destruct (allBytes isDigit a); cbn [negb];
        [destruct (startsZero a)|];
        [ | destruct (allBytes isDigit b); cbn [negb]; [destruct (startsZero b)|] | ];
        eexists; eexists; (split; [exact Hs|]); (split; [assumption|]);
        (split; [reflexivity|]); (split; [tauto|]);
        split; try discriminate; try tauto;
        intros [[? ?] | [[? ?] [? ?]]]; discriminate.
  - intros messages H.
    destruct ver as [|c0 t0] eqn:Ev; [discriminate|]. rewrite <- Ev in *.
    assert (Hne : ver <> "") by (rewrite Ev; discriminate).
    destruct (SplitN3_shape ver Hne) as [(a & Hs) | [(a & b & Hs) | (a & b & c & Hs)]];
      rewrite Hs; [now left | now right |].
    exfalso. rewrite (Validate_segments isPrintWide ver a b c Hne Hs) in H.
    assert (Hseg : forall p e', segFault p = Some e' -> e' <> ErrInvalidNumberParts).
    { intros p e'. unfold segFault.
      destruct (allBytes isDigit p); cbn; [destruct (startsZero p)|];
        intros [= <-]; discriminate. }
    destruct (segFault a) as [e0|] eqn:Ea;
      [injection H as -> _; now apply (Hseg _ _ Ea)|].
    destruct (segFault b) as [e0|] eqn:Eb;
      [injection H as -> _; now apply (Hseg _ _ Eb)|].
    destruct (segFault (patchOf c)) as [e0|] eqn:Ec;
      [injection H as -> _; now apply (Hseg _ _ Ec)|].
    apply segFault_None in Ea, Eb, Ec.
    destruct (parseSegments_clean (semver.mkVersion 0 0 0 (preOf c) (metaOf c)) a b (patchOf c)
                Ea Eb Ec) as [(_ & _ & _ & Hp) | (s & cause & rest & line & Hp)];
      rewrite Hp in H; cbn [bind semver.pre semver.metadata] in H; [|discriminate].
    destruct (validateSuffixes_returns isPrintWide
                (semver.mkVersion (decimal a) (decimal b) (decimal (patchOf c))
                   (preOf c) (metaOf c)) (foundLines a b (patchOf c)))
      as [Hv | (e' & rest & line & Hv & [-> | ->])]; rewrite Hv in H; discriminate.
Qed.

End Claims.

Lemma C7_witness :
  semver.Validate latin1Table "1.2"
  = Ret (Some ErrInvalidNumberParts, ["Found 2 number of parts"%string])
  /\ (lenS (strings.SplitN "1.2" "." 3) = 1 \/ lenS (strings.SplitN "1.2" "." 3) = 2).
Proof.
  apply (C7_wrong_segment_count latin1Table "1.2"); [discriminate | vm_compute; discriminate].
Defined.

Lemma C1_witness :
  exists p0 p1 p2 a b c,
    strings.SplitN "1.2.3-rc.1+b7" "." 3 = [p0; p1; p2]
    /\ strconv.ParseUint p0 = (a, None) /\ a = decimal p0
    /\ strconv.ParseUint p1 = (b, None) /\ b = decimal p1
    /\ strconv.ParseUint (patchOf p2) = (c, None) /\ c = decimal (patchOf p2)
    /\ [ "Found major version of 1"; "Found minor version of 2"; "Found patch version of 3";
         "Version is a pre-release version rather than a stable release version with a pre-release identifier of "
           ++ quoted "rc.1";
         semver.preNotice;
         "Found build metadate on version of " ++ quoted "b7";
         semver.metaNotice ]%string =
         ([("Found major version of " ++ strconv.FormatInt a)%string;
           ("Found minor version of " ++ strconv.FormatInt b)%string;
           ("Found patch version of " ++ strconv.FormatInt c)%string]
          ++ (if (preOf p2 =? "")%string then [] else preLines latin1Table (preOf p2))
          ++ (if (metaOf p2 =? "")%string then [] else metaLines latin1Table (metaOf p2)))%list.
Proof.
  apply (C1_valid_reports_core latin1Table "1.2.3-rc.1+b7"). vm_compute. reflexivity.
Defined.

Lemma C3_witness :
  semver.Validate latin1Table "1.2.03"
  = Ret (Some ErrSegmentStartsZero,
         ["Illegal leading 0 found in " ++ quoted "patch" ++ " part"]%string).
Proof.
  apply (C3_first_core_violation latin1Table "1.2.03" "1" "2" "03" 2 "03" "patch");
    try reflexivity; try discriminate.
  repeat constructor.
Defined.

Lemma C2_counterexample :
  strings.SplitN "18446744073709551616.x.1" "." 3 = ["18446744073709551616"; "x"; "1"]%string
  /\ allBytes isDigit "18446744073709551616" = true
  /\ startsZero "18446744073709551616" = false
  /\ decimal "18446744073709551616" = strconv.maxUint64 + 1
  /\ (forall isPrintWide,
        semver.Validate isPrintWide "18446744073709551616.x.1"
        = Ret (Some ErrInvalidCharacters,
               ["Illegal non-numeric characters found in " ++ quoted "minor" ++ " part"]%string)).
Proof.
  repeat split; intros; vm_compute; reflexivity.
Defined.

Lemma C2_witness :
  semver.Validate latin1Table "1.18446744073709551616.1"
  = Ret (Some (NumError "ParseUint" "18446744073709551616" ErrRange),
         ["Found major version of 1";
          "Unable to parse minor part. Must be valid numeric characters [0-9]"]%string).
Proof.
  apply (C2_overflow_reported latin1Table "1.18446744073709551616.1"
           "1" "18446744073709551616" "1" 1 "18446744073709551616" "minor");
    try reflexivity; try discriminate.
  - repeat constructor.
  - repeat constructor; discriminate.
Defined.

Lemma C4_witness :
  semver.Validate latin1Table "1.2.3-alpha.01"
  = Ret (Some ErrSegmentStartsZero,
         ["Found major version of 1"; "Found minor version of 2"; "Found patch version of 3";
          "Illegal leading 0 found in pre-release numeric part " ++ quoted "01"]%string).
Proof.
  destruct (C4_prerelease_identifiers latin1Table "alpha.01" ["alpha"%string] [] "01"
              eq_refl ltac:(repeat constructor)) as (_ & _ & _ & H).
  apply (H "1.2.3-alpha.01"%string "1"%string "2"%string "3-alpha.01"%string);
    try reflexivity; try discriminate; repeat constructor; discriminate.
Defined.

Lemma C10_counterexample :
  lenS (strings.Split "01.2.3.4" ".") = 4
  /\ strings.ContainsAny "01.2.3.4" "-+" = false
  /\ (forall isPrintWide,
        semver.Validate isPrintWide "01.2.3.4"
        = Ret (Some ErrSegmentStartsZero,
               ["Illegal leading 0 found in " ++ quoted "major" ++ " part"]%string)).
Proof.
  repeat split; intros; vm_compute; reflexivity.
Defined.

Lemma C10_witness :
  exists p0 p1 p2 e line,
    strings.SplitN "1.2.3.4" "." 3 = [p0; p1; p2]
    /\ allBytes isDigit (patchOf p2) = false
    /\ semver.Validate latin1Table "1.2.3.4" = Ret (Some e, [line])
    /\ (e = ErrInvalidCharacters \/ e = ErrSegmentStartsZero)
    /\ (e = ErrSegmentStartsZero <->
        (allBytes isDigit p0 = true /\ startsZero p0 = true)
        \/ (clean p0 /\ allBytes isDigit p1 = true /\ startsZero p1 = true)).
Proof.
  apply (proj1 (C10_four_pieces latin1Table "1.2.3.4")); vm_compute; [discriminate | reflexivity].
Defined.

(** * Further properties of the code *)

Section Further.

Variable isPrintWide : Z -> bool.

Local Open Scope string_scope.

Local Abbreviation Validate := (semver.Validate isPrintWide).

(** X1.  [containsOnly] on an alphabet of ASCII bytes is a test on the
    bytes of the string: on [num] it says that every byte is a digit, on
    [allowed] that every byte is a letter, a digit or the hyphen.  The empty
    string passes, and a string with a byte of [0x80] or above, part of a
    well-formed rune or not, does not. *)
Theorem X1_containsOnly_bytes :
  (forall s, semver.containsOnly s semver.num = allBytes isDigit s)
  /\ (forall s, semver.containsOnly s semver.allowed = allBytes isAllowed s)
  /\ (forall comp s, allBytes isASCII comp = true ->
        semver.containsOnly s comp = allBytes (memByte comp) s)
  /\ (forall comp, semver.containsOnly "" comp = true)
  /\ (forall comp s c t, allBytes isASCII comp = true -> (128 <= b2z c)%Z ->
        semver.containsOnly (s ++ String c t) comp = false).
Proof.
  split; [exact containsOnly_num|]. split; [exact containsOnly_allowed|].
  split; [intros comp s H; now apply containsOnly_bytes|].
  split; [reflexivity|].
  intros comp s c t Hc Hb. rewrite containsOnly_bytes by assumption.
  rewrite allBytes_app. cbn [allBytes]. unfold memByte at 2.
  rewrite (IndexByte_ascii_absent comp c Hc Hb). cbn. now rewrite andb_false_r.
Qed.

(** X2.  What [Validate] accepts: the inputs of three pieces whose major,
    minor and cleaned patch are non-empty strings of digits without a
    leading zero and with a value of at most [maxUint64], whose pre-release
    identifiers pass the test of the pre-release and whose metadata
    identifiers are made of the allowed bytes. *)
Theorem X2_accepts_iff (ver : string) :
  (exists messages, Validate ver = Ret (None, messages))
  <-> exists p0 p1 p2,
        strings.SplitN ver "." 3 = [p0; p1; p2]
        /\ converts p0 /\ converts p1 /\ converts (patchOf p2)
        /\ Forall (fun p => preOk p = true) (strings.Split (preOf p2) ".")
        /\ Forall (fun p => metaOk p = true) (strings.Split (metaOf p2) ".").
Proof. apply Validate_valid_iff. Qed.

(** X3.  The error [Validate] returns is nil, one of the four errors of the
    package or the [*NumError] of [ParseUint], and it is the last only on
    three segments that pass the first loop and of which one does not
    convert: it is empty or its value is above [maxUint64]. *)
Theorem X3_error_kinds (ver : string) :
  (exists e messages,
     Validate ver = Ret (e, messages)
     /\ (e = None \/ e = Some ErrEmptyString \/ e = Some ErrInvalidNumberParts
         \/ e = Some ErrInvalidCharacters \/ e = Some ErrSegmentStartsZero
         \/ exists s cause, e = Some (NumError "ParseUint" s cause)))
  /\ ((exists s cause messages,
         Validate ver = Ret (Some (NumError "ParseUint" s cause), messages))
      <-> exists p0 p1 p2,
            strings.SplitN ver "." 3 = [p0; p1; p2]
            /\ clean p0 /\ clean p1 /\ clean (patchOf p2)
            /\ ~ (converts p0 /\ converts p1 /\ converts (patchOf p2))).
Proof.
  split; [|apply Validate_NumError_iff].
  destruct (Validate_returns isPrintWide ver) as (e & messages & H).
  exists e, messages. split; [assumption|]. now apply (Validate_errors isPrintWide ver e messages).
Qed.

(** X4.  An empty core segment passes the first loop and fails its
    conversion: when the three segments pass the loop and the ones before it
    convert, [Validate] returns the syntax error of [ParseUint], after the
    lines of the segments before it and the line that names it. *)
Theorem X4_empty_segment (ver p0 p1 p2 : string) (i : nat) (name : string) :
  ver <> "" ->
  strings.SplitN ver "." 3 = [p0; p1; p2] ->
  [p0; p1; patchOf p2] !! i = Some "" ->
  ["major"; "minor"; "patch"] !! i = Some name ->
  Forall clean [p0; p1; patchOf p2] ->
  Forall converts (take i [p0; p1; patchOf p2]) ->
  Validate ver =
    Ret (Some (NumError "ParseUint" "" ErrSyntax),
         (take i (foundLines p0 p1 (patchOf p2))
          ++ [("Unable to parse " ++ name
               ++ " part. Must be valid numeric characters [0-9]")%string])%list).
Proof.
  intros Hne Hs Hseg Hname Hclean Hconv.
  rewrite (Validate_segments isPrintWide ver p0 p1 p2 Hne Hs).
  apply Forall_cons_1 in Hclean as [K0 Hclean].
  apply Forall_cons_1 in Hclean as [K1 Hclean].
  apply Forall_cons_1 in Hclean as [K2 _].
  rewrite (proj2 (segFault_None p0) K0), (proj2 (segFault_None p1) K1),
    (proj2 (segFault_None (patchOf p2)) K2), parseSegments_spec.
  destruct i as [|[|[|i]]]; cbn in Hseg, Hname, Hconv; try discriminate;
    injection Hseg as Hseg; injection Hname as <-.
  - rewrite Hseg. reflexivity.
  - apply Forall_cons_1 in Hconv as [C0 _].
    rewrite (ParseUint_converts _ C0), Hseg. reflexivity.
  - apply Forall_cons_1 in Hconv as [C0 Hconv]. apply Forall_cons_1 in Hconv as [C1 _].
    rewrite (ParseUint_converts _ C0), (ParseUint_converts _ C1), Hseg. reflexivity.
Qed.

(** X5.  The pre-release is checked before the metadata: when the core
    converts and the pre-release, not empty, passes, the first identifier of
    the metadata with a byte that is not allowed gives
    [ErrInvalidCharacters] after the lines of the core and the two of the
    pre-release. *)
Theorem X5_metadata_fault_after_prerelease
    (ver p0 p1 p2 : string) (before after : list string) (id : string) :
  ver <> "" ->
  strings.SplitN ver "." 3 = [p0; p1; p2] ->
  converts p0 -> converts p1 -> converts (patchOf p2) ->
  preOf p2 <> "" ->
  Forall (fun p => preOk p = true) (strings.Split (preOf p2) ".") ->
  strings.Split (metaOf p2) "." = (before ++ id :: after)%list ->
  Forall (fun p => allBytes isAllowed p = true) before ->
  allBytes isAllowed id = false ->
  Validate ver =
    Ret (Some ErrInvalidCharacters,
         (foundLines p0 p1 (patchOf p2) ++ preLines isPrintWide (preOf p2)
          ++ [("Illegal characters found in metadata part " ++ fmt.q isPrintWide id
               ++ ". Must be [0-9A-Za-z-]")%string])%list).
Proof.
  intros Hne Hs C0 C1 C2 Hpre Hp Hsp Hb Hid.
  assert (Hmeta : metaOf p2 <> "").
  { intros E. rewrite E in Hsp. destruct before as [|? [|? ?]]; cbn in Hsp;
      try discriminate. injection Hsp as <- _. discriminate. }
  rewrite (Validate_meta_fault isPrintWide ver p0 p1 p2 before after id) by assumption.
  now rewrite (eqb_empty_false _ Hpre).
Qed.

(** X6.  The lines of a valid version spell its core segments as the input
    has them: [%d] of the value of a segment that converts is the segment
    itself. *)
Theorem X6_found_lines_echo (ver : string) (messages : list string) :
  Validate ver = Ret (None, messages) ->
  exists p0 p1 p2 rest,
    strings.SplitN ver "." 3 = [p0; p1; p2]
    /\ messages = ([("Found major version of " ++ p0)%string;
                    ("Found minor version of " ++ p1)%string;
                    ("Found patch version of " ++ patchOf p2)%string] ++ rest)%list.
Proof.
  intros H. apply Validate_valid_inv in H as (p0 & p1 & p2 & Hs & C0 & C1 & C2 & ->).
  exists p0, p1, p2, (suffixLines isPrintWide (preOf p2) (metaOf p2)).
  split; [assumption|]. unfold foundLines, foundLine.
  destruct C0 as ((D0 & Z0) & N0 & _), C1 as ((D1 & Z1) & N1 & _), C2 as ((D2 & Z2) & N2 & _).
  now rewrite !FormatInt_decimal by assumption.
Qed.


(** X8.  The status [validate] exits with, by the input handed to
    [Validate]: 3 on the empty string, 4 on one or two pieces, 2 on three
    segments that pass the first loop and do not all convert, none on what
    [Validate] accepts, and 5 or 6 on the rest. *)
Theorem X8_validate_status (withV : bool) (ver : string) (out : list main.event)
    (status : option Z) :
  main.validate isPrintWide withV ver = Ret (out, status) ->
  (status = Some 3%Z <-> handed withV ver = "")
  /\ (status = Some 4%Z <->
      handed withV ver <> "" /\ lenS (strings.SplitN (handed withV ver) "." 3) <> 3%Z)
  /\ (status = Some 2%Z <->
      exists p0 p1 p2,
        strings.SplitN (handed withV ver) "." 3 = [p0; p1; p2]
        /\ clean p0 /\ clean p1 /\ clean (patchOf p2)
        /\ ~ (converts p0 /\ converts p1 /\ converts (patchOf p2)))
  /\ (status = None <-> exists messages, Validate (handed withV ver) = Ret (None, messages))
  /\ (status = Some 5%Z <->
      exists messages, Validate (handed withV ver) = Ret (Some ErrInvalidCharacters, messages))
  /\ (status = Some 6%Z <->
      exists messages, Validate (handed withV ver) = Ret (Some ErrSegmentStartsZero, messages))
  /\ (status = None \/ exists n, status = Some n /\ (2 <= n <= 6)%Z).
Proof.
  intros Hrun.
  destruct (Validate_returns isPrintWide (handed withV ver)) as (e & msgs & H).
  destruct (validate_unfold isPrintWide withV ver e msgs H) as (verdict & st & Hv & Hm).
  rewrite Hv in Hrun. injection Hrun as _ <-.
  assert (Huniq : forall e' m', Validate (handed withV ver) = Ret (e', m') -> e' = e)
    by (intros e' m' H'; rewrite H in H'; now injection H').
  refine (conj _ (conj _ (conj _ _))).
  1: eapply iff_trans; [|apply (Validate_empty_iff isPrintWide)].
  2: eapply iff_trans; [|apply (Validate_parts_iff isPrintWide)].
  3: eapply iff_trans; [|apply (Validate_NumError_iff isPrintWide)].
  all: destruct e as [[| | | |fn n c]|]; destruct Hm as [-> ->];
    repeat split;
    try discriminate;
    try (intros _; eauto; fail);
    try (intros (m' & H'); apply Huniq in H'; discriminate);
    try (intros (s' & c' & m' & H'); apply Huniq in H'; discriminate);
    try (right; eexists; split; [reflexivity | lia]);
    try (now left).
  intros _. destruct (Validate_errors isPrintWide _ _ _ H)
    as [E | [E | [E | [E | [E | (s & cause & E)]]]]]; try discriminate.
  injection E as -> -> ->. eauto.
Qed.

(** X9.  The flag [--with-v] removes one leading [v] and nothing else:
    with it, [validate] on [v] followed by [s] does what it does without it
    on [s], and on an input that does not start with [v] it does what it
    does without the flag.  Without the flag an input that starts with [v],
    or with any byte that is not a digit, is never valid. *)
Theorem X9_with_v :
  (forall s, main.validate isPrintWide true (String "v" s) = main.validate isPrintWide false s)
  /\ (forall s, strings.HasPrefix s "v" = false ->
        main.validate isPrintWide true s = main.validate isPrintWide false s)
  /\ (forall c s messages, isDigit c = false ->
        Validate (String c s) <> Ret (None, messages))
  /\ (forall s, exists out n,
        main.validate isPrintWide false (String "v" s) = Ret (out, Some n)
        /\ (n = 4 \/ n = 5)%Z).
Proof.
  assert (Hfirst : forall c s messages, isDigit c = false ->
                     Validate (String c s) <> Ret (None, messages)).
  { intros c s messages Hc H.
    apply Validate_valid_inv in H as (p0 & p1 & p2 & Hs & C0 & _).
    apply SplitN3_inv in Hs as (Hv & _); [|discriminate].
    destruct C0 as ((Hd & _) & Hne & _). destruct p0 as [|c0 t0]; [congruence|].
    cbn in Hv. injection Hv as <- _. cbn in Hd. now rewrite Hc in Hd. }
  split; [|split; [|split; [exact Hfirst|]]].
  - intros s. unfold main.validate, strings.TrimPrefix, strings.HasPrefix. cbn.
    now destruct s.
  - intros s Hs. unfold main.validate, strings.TrimPrefix. now rewrite Hs.
  - intros s.
    destruct (Validate_returns isPrintWide (String "v" s)) as (e & msgs & H).
    destruct (validate_unfold isPrintWide false (String "v" s) e msgs H)
      as (verdict & st & Hv & Hm).
    rewrite Hv.
    assert (Hne : String "v" s <> "") by discriminate.
    destruct (SplitN3_shape (String "v" s) Hne)
      as [(a & Hs) | [(a & b & Hs) | (a & b & c & Hs)]].
    + unfold handed in H. rewrite Validate_count in H
        by (assumption || (rewrite Hs; discriminate)).
      injection H as <- _. destruct Hm as [_ ->]. eexists; eexists; split; [reflexivity | now left].
    + unfold handed in H. rewrite Validate_count in H
        by (assumption || (rewrite Hs; discriminate)).
      injection H as <- _. destruct Hm as [_ ->]. eexists; eexists; split; [reflexivity | now left].
    + unfold handed in H.
      rewrite (Validate_segments isPrintWide _ a b c Hne Hs) in H.
      pose proof (SplitN3_inv _ a b c Hne Hs) as (Hver & _).
      assert (Ha : segFault a = Some ErrInvalidCharacters).
      { apply segFault_chars. destruct a as [|c0 t0].
        - cbn in Hver. discriminate.
        - cbn in Hver. injection Hver as <- _. reflexivity. }
      rewrite Ha in H. injection H as <- _. destruct Hm as [_ ->].
      eexists; eexists; split; [reflexivity | now right].
Qed.


(** X11.  The test of the package passes: on none of the rows of its table
    does [TestIsValid] reach [t.Fatalf]. *)
Theorem X11_TestIsValid_passes : semver_test.TestIsValid isPrintWide = Ret None.
Proof. vm_compute. reflexivity. Qed.

(** X12.  What [Validate] accepts, as written: a major, a minor and a
    patch that convert, joined with dots, then possibly a hyphen and a
    pre-release whose identifiers pass, then possibly a plus sign and a
    metadata whose identifiers pass; and the messages of such a version are
    the lines of its core, spelled as written, and those of its non-empty
    suffixes. *)
Theorem X12_accepts_as_written :
  (forall ver,
     (exists messages, semver.Validate isPrintWide ver = Ret (None, messages))
     <-> exists maj min pat pre meta,
           ver = render maj min pat pre meta
           /\ converts maj /\ converts min /\ converts pat
           /\ suffixOk preOk pre /\ suffixOk metaOk meta)
  /\ (forall maj min pat pre meta,
        converts maj -> converts min -> converts pat ->
        suffixOk preOk pre -> suffixOk metaOk meta ->
        semver.Validate isPrintWide (render maj min pat pre meta) =
          Ret (None,
               ([("Found major version of " ++ maj)%string;
                 ("Found minor version of " ++ min)%string;
                 ("Found patch version of " ++ pat)%string]
                ++ suffixLines isPrintWide
                     match pre with Some p => p | None => "" end
                     match meta with Some m => m | None => "" end)%list)).
Proof.
  assert (Hok : forall maj min pat pre meta,
            converts maj -> converts min -> converts pat ->
            suffixOk preOk pre -> suffixOk metaOk meta ->
            semver.Validate isPrintWide (render maj min pat pre meta) =
              Ret (None,
                   ([("Found major version of " ++ maj)%string;
                     ("Found minor version of " ++ min)%string;
                     ("Found patch version of " ++ pat)%string]
                    ++ suffixLines isPrintWide
                         match pre with Some p => p | None => "" end
                         match meta with Some m => m | None => "" end)%list)).
  { intros maj min pat pre meta C0 C1 C2 Hp Hm.
    destruct (render_pieces maj min pat pre meta C0 C1 C2 Hp) as (Hs & Hpat & Hpre & Hmeta).
    assert (Hne : render maj min pat pre meta <> "").
    { destruct C0 as (_ & N0 & _). unfold render. destruct maj; [now elim N0 | discriminate]. }
    pose proof (Validate_suffixes_ok isPrintWide _ _ _ _ Hne Hs) as HV.
    rewrite Hpat, Hpre, Hmeta in HV. rewrite HV; try assumption.
    - unfold foundLines, foundLine.
      destruct C0 as ((D0 & Z0) & N0 & _), C1 as ((D1 & Z1) & N1 & _),
        C2 as ((D2 & Z2) & N2 & _).
      now rewrite !FormatInt_decimal by assumption.
    - destruct pre; [exact Hp | repeat constructor].
    - destruct meta; [exact Hm | repeat constructor]. }
  split; [|exact Hok].
  intros ver. split.
  - intros Hv. apply (Validate_valid_iff isPrintWide) in Hv
      as (p0 & p1 & p2 & Hs & C0 & C1 & C2 & Hp & Hm).
    assert (Hne : ver <> "") by (intros ->; discriminate).
    destruct (pieces_render ver p0 p1 p2 Hne Hs) as (pre & meta & Hver & Hpre & Hmeta).
    exists p0, p1, (patchOf p2), pre, meta. repeat (split; [assumption|]).
    rewrite Hpre in Hp. rewrite Hmeta in Hm.
    split; [destruct pre | destruct meta]; cbn; trivial.
  - intros (maj & min & pat & pre & meta & -> & C0 & C1 & C2 & Hp & Hm).
    eexists. now apply Hok.
Qed.

End Further.

Lemma X4_witness :
  semver.Validate latin1Table "1..3"
  = Ret (Some (NumError "ParseUint" "" ErrSyntax),
         ["Found major version of 1";
          "Unable to parse minor part. Must be valid numeric characters [0-9]"]%string).
Proof.
  apply (X4_empty_segment latin1Table "1..3" "1" "" "3" 1 "minor");
    try reflexivity; try discriminate.
  - repeat constructor.
  - repeat constructor; discriminate.
Defined.

Lemma X5_witness :
  semver.Validate latin1Table "1.2.3-rc.1+a_b"
  = Ret (Some ErrInvalidCharacters,
         ["Found major version of 1"; "Found minor version of 2"; "Found patch version of 3";
          "Version is a pre-release version rather than a stable release version with a pre-release identifier of "
            ++ quoted "rc.1";
          semver.preNotice;
          "Illegal characters found in metadata part " ++ quoted "a_b"
            ++ ". Must be [0-9A-Za-z-]"]%string).
Proof.
  apply (X5_metadata_fault_after_prerelease latin1Table "1.2.3-rc.1+a_b" "1" "2" "3-rc.1+a_b"
           [] [] "a_b");
    try reflexivity; try discriminate; repeat constructor; discriminate.
Defined.

Lemma X6_witness :
  exists p0 p1 p2 rest,
    strings.SplitN "10.20.30-rc.1" "." 3 = [p0; p1; p2]
    /\ [ "Found major version of 10"; "Found minor version of 20";
         "Found patch version of 30";
         "Version is a pre-release version rather than a stable release version with a pre-release identifier of "
           ++ quoted "rc.1";
         semver.preNotice ]%string
       = ([("Found major version of " ++ p0)%string;
           ("Found minor version of " ++ p1)%string;
           ("Found patch version of " ++ patchOf p2)%string] ++ rest)%list.
Proof.
  apply (X6_found_lines_echo latin1Table "10.20.30-rc.1"). vm_compute. reflexivity.
Defined.

Lemma X8_witness :
  (Some 4 = Some 3 <-> handed true "v1.2" = ""%string)
  /\ (Some 4 = Some 4 <->
      handed true "v1.2" <> ""%string
      /\ lenS (strings.SplitN (handed true "v1.2") "." 3) <> 3)
  /\ (Some 4 = Some 2 <->
      exists p0 p1 p2,
        strings.SplitN (handed true "v1.2") "." 3 = [p0; p1; p2]
        /\ clean p0 /\ clean p1 /\ clean (patchOf p2)
        /\ ~ (converts p0 /\ converts p1 /\ converts (patchOf p2)))
  /\ (Some 4 = None <->
      exists messages, semver.Validate latin1Table (handed true "v1.2") = Ret (None, messages))
  /\ (Some 4 = Some 5 <->
      exists messages,
        semver.Validate latin1Table (handed true "v1.2")
        = Ret (Some ErrInvalidCharacters, messages))
  /\ (Some 4 = Some 6 <->
      exists messages,
        semver.Validate latin1Table (handed true "v1.2")
        = Ret (Some ErrSegmentStartsZero, messages))
  /\ (Some 4 = None \/ exists n, Some 4 = Some n /\ 2 <= n <= 6).
Proof.
  apply (X8_validate_status latin1Table true "v1.2"
           [main.Println "Found 2 number of parts";
            main.RedStderr (main.errmsg ErrInvalidNumberParts)]).
  vm_compute. reflexivity.
Defined.

Lemma X12_witness :
  semver.Validate latin1Table "1.2.3-rc.1+build.7"
  = Ret (None,
         ["Found major version of 1"; "Found minor version of 2"; "Found patch version of 3";
          "Version is a pre-release version rather than a stable release version with a pre-release identifier of "
            ++ quoted "rc.1";
          semver.preNotice;
          "Found build metadate on version of " ++ quoted "build.7";
          semver.metaNotice]%string).
Proof.
  destruct (X12_accepts_as_written latin1Table) as [_ H].
  apply (H "1" "2" "3" (Some "rc.1") (Some "build.7"))%string;
    repeat constructor; discriminate.
Defined.
